(** * SMC backtester: pattern detectors, strategies and simulation engine

    A shallow embedding of [core/smc_concepts.py], [core/backtester.py] and
    the two example strategies, with the properties the specification states
    about them.

    Modelling conventions.
    - Python floats are idealised as exact rationals ([Q]); the tests
      [<], [<=], [==] of the source become the boolean tests on [Q].
      Rounding, overflow and non-finite prices are outside the model.
    - pandas marks a missing value by NaN and numpy division does not raise
      on a zero divisor: the cells of the engine's valuation frame and the
      drawdown series are therefore of type [cell], the rationals extended
      with NaN and the two infinities.
    - A pandas frame is a row count, an index and labelled columns; a column
      is a function from positions to values, of which only the positions
      below the row count are read.  What [pd.to_datetime] makes of an index
      or of a column is part of the data (a field of the index or column).
      Where two columns carry the same label the first one is read.
    - The index labels of a frame are taken to be distinct, as the data
      model of the specification requires, so that the row [.loc[timestamp]]
      of [positions_df] is the row at the position of the bar.
    - [print] calls are not modelled.  Exceptions are values of [result]. *)

From Stdlib Require Import QArith Qabs ZArith Lia Lqa Sorted.
From stdpp Require Import base option list strings gmap functions.

Local Open Scope Q_scope.

(** ** Numbers *)

Definition Qlt_bool (x y : Q) : bool := negb (Qle_bool y x).

(** ** Exceptions *)

Inductive exn : Type :=
| ValueError (msg : string)
| KeyError (key : string)
| IndexError.

Inductive result (A : Type) : Type :=
| Ok (a : A)
| Raise (e : exn).
Arguments Ok {A} a.
Arguments Raise {A} e.

#[global] Instance result_ret : MRet result := λ A a, Ok a.
#[global] Instance result_bind : MBind result := λ A B f m,
  match m with
  | Ok a => f a
  | Raise e => Raise e
  end.

Definition is_Ok {A} (r : result A) : bool :=
  match r with Ok _ => true | Raise _ => false end.

(** ** Strings *)

Definition lower_ascii (c : Ascii.ascii) : Ascii.ascii :=
  let n := Ascii.nat_of_ascii c in
  if ((65 <=? n) && (n <=? 90))%nat then Ascii.ascii_of_nat (n + 32) else c.

Fixpoint lower (s : string) : string :=
  match s with
  | EmptyString => EmptyString
  | String c s' => String (lower_ascii c) (lower s')
  end.

(** ** Frames *)

Definition Timestamp : Type := Z.

Record Series : Type := mkSeries {
  values : nat → Q;
  to_datetime : option (nat → Timestamp)
}.

(** An index that is not a [DatetimeIndex] has labels of some other kind,
    kept as integer codes, and the outcome of [pd.to_datetime] on it. *)
Inductive Index : Type :=
| DatetimeIndex (ts : nat → Timestamp)
| ObjectIndex (raw : nat → Z) (parsed : option (nat → Timestamp)).

Definition index_at (ix : Index) (i : nat) : Z :=
  match ix with
  | DatetimeIndex ts => ts i
  | ObjectIndex raw _ => raw i
  end.

Record DataFrame : Type := mkDataFrame {
  len : nat;
  index : Index;
  columns : list (string * Series)
}.

Definition labels (df : DataFrame) : list string := (columns df).*1.

Definition in_columns (c : string) (df : DataFrame) : bool :=
  bool_decide (c ∈ labels df).

Fixpoint find_column (c : string) (cols : list (string * Series)) : option Series :=
  match cols with
  | [] => None
  | (l, s) :: rest => if decide (l = c) then Some s else find_column c rest
  end.

Definition column (df : DataFrame) (c : string) : option Series :=
  find_column c (columns df).

Definition isinstance_DatetimeIndex (ix : Index) : bool :=
  match ix with DatetimeIndex _ => true | ObjectIndex _ _ => false end.

(** [df.set_index(c)]: the column becomes the index and leaves the columns. *)
Definition set_index (df : DataFrame) (c : string) (ts : nat → Timestamp) : DataFrame :=
  {| len := len df;
     index := DatetimeIndex ts;
     columns := filter (λ p, p.1 ≠ c) (columns df) |}.

(** [df.iloc[i]]: a row, read by label. *)
Definition Row : Type := string → option Q.

Definition iloc (df : DataFrame) (i : nat) : Row :=
  λ c, (λ s, values s i) <$> column df c.

Definition getitem (r : Row) (c : string) : result Q :=
  match r c with
  | Some x => Ok x
  | None => Raise (KeyError c)
  end.

(** [for i in idxs: s = body(s, i)], stopping at the first exception. *)
Fixpoint for_each {S : Type} (body : S → nat → result S) (s : S) (idxs : list nat) : result S :=
  match idxs with
  | [] => Ok s
  | i :: rest => s' ← body s i; for_each body s' rest
  end.

(** [a and b], where [b] is only evaluated when [a] holds. *)
Definition and_then (a : bool) (b : result bool) : result bool :=
  if a then b else Ok false.

(** ** core/smc_concepts.py: data classes *)

Record Candle : Type := mkCandle {
  c_timestamp : Timestamp;
  c_open : Q;
  c_high : Q;
  c_low : Q;
  c_close : Q;
  c_volume : Q
}.

Definition is_bullish (c : Candle) : bool := Qlt_bool (c_open c) (c_close c).
Definition is_bearish (c : Candle) : bool := Qlt_bool (c_close c) (c_open c).
Definition body_size (c : Candle) : Q := Qabs (c_close c - c_open c).
Definition range (c : Candle) : Q := c_high c - c_low c.

(** The record keeps the fields of the dataclass in their declared order.
    The source declares [is_bullish] without a default after the defaulted
    [volume], an order the [dataclass] decorator refuses when the module is
    loaded; the detectors below are embedded as they are written, with the
    constructor called by keyword as the source does. *)
Record OrderBlock : Type := mkOrderBlock {
  ob_start_time : Timestamp;
  ob_end_time : Timestamp;
  ob_high : Q;
  ob_low : Q;
  ob_volume : option Q;
  ob_is_bullish : bool;
  ob_mitigated_time : option Timestamp;
  ob_mitigated_by_wick : bool
}.

Definition ob_mitigated (ob : OrderBlock) : bool :=
  bool_decide (ob_mitigated_time ob ≠ None).

Record FairValueGap : Type := mkFairValueGap {
  fvg_start_time : Timestamp;
  fvg_end_time : Timestamp;
  fvg_high : Q;
  fvg_low : Q;
  fvg_is_bullish : bool;
  fvg_filled_time : option Timestamp;
  fvg_partially_filled_level : option Q
}.

Definition fvg_filled (fvg : FairValueGap) : bool :=
  bool_decide (fvg_filled_time fvg ≠ None).

(** ** core/smc_concepts.py: frame preparation *)

Definition time_cols : list string := ["timestamp"; "time"; "Date"; "date"].

(** The loop over [time_cols]: the first listed column that is present and
    that [pd.to_datetime] accepts becomes the index. *)
Fixpoint convert_time_column (df : DataFrame) (names : list string) : option DataFrame :=
  match names with
  | [] => None
  | col_name :: rest =>
      if in_columns col_name df then
        match column df col_name ≫= to_datetime with
        | Some ts => Some (set_index df col_name ts)
        | None => convert_time_column df rest
        end
      else convert_time_column df rest
  end.

Definition ensure_index (df : DataFrame) : DataFrame :=
  match index df with
  | DatetimeIndex _ => df
  | ObjectIndex _ parsed =>
      match convert_time_column df time_cols with
      | Some df' => df'
      | None =>
          match parsed with
          | Some ts => {| len := len df; index := DatetimeIndex ts; columns := columns df |}
          | None => df
          end
      end
  end.

Definition rename_entry (rename_map : gmap string string) (col : string) : gmap string string :=
  let col_lower := lower col in
  if decide (col_lower = "open") then <[col := "open"]> rename_map
  else if decide (col_lower = "high") then <[col := "high"]> rename_map
  else if decide (col_lower = "low") then <[col := "low"]> rename_map
  else if decide (col_lower = "close") then <[col := "close"]> rename_map
  else if decide (col_lower = "volume") then <[col := "volume"]> rename_map
  else rename_map.

Definition build_rename_map (cols : list string) : gmap string string :=
  foldl rename_entry ∅ cols.

(** [df.rename(columns=rename_map)] *)
Definition rename (df : DataFrame) (rename_map : gmap string string) : DataFrame :=
  {| len := len df;
     index := index df;
     columns := (λ p, (default p.1 (rename_map !! p.1), p.2)) <$> columns df |}.

Definition essential_cols : list string := ["open"; "high"; "low"; "close"].

Definition _ensure_datetime_index_and_columns (ohlcv_data : DataFrame) : result DataFrame :=
  let df := ensure_index ohlcv_data in
  let rename_map := build_rename_map (labels df) in
  let df := rename df rename_map in
  if forallb (λ col, in_columns col df) essential_cols then Ok df
  else Raise (ValueError "Essential OHLC columns missing. Required: ['open', 'high', 'low', 'close']").

(** The index values of a [DatetimeIndex] are timestamps already. *)
Definition _get_timestamp_from_index (idx_val : Timestamp) : Timestamp := idx_val.

(** ** core/smc_concepts.py: detectors *)

Definition default_strength_factor : Q := 12 # 10.

(** One pass of the loop of [identify_order_blocks], at index [i >= 1]. *)
Definition order_blocks_body (df : DataFrame) (ts : nat → Timestamp) (strength_factor : Q)
    (order_blocks : list OrderBlock) (i : nat) : result (list OrderBlock) :=
  let prev_candle := iloc df (i - 1) in
  let curr_candle := iloc df i in
  let prev_ts := _get_timestamp_from_index (ts (i - 1)%nat) in
  pc ← getitem prev_candle "close"; po ← getitem prev_candle "open";
  let is_prev_bearish := Qlt_bool pc po in
  cc ← getitem curr_candle "close"; co ← getitem curr_candle "open";
  let is_curr_bullish := Qlt_bool co cc in
  let prev_body := Qabs (po - pc) in
  let curr_body := Qabs (co - cc) in
  strong_up ← and_then (is_prev_bearish && is_curr_bullish)
    (ph ← getitem prev_candle "high";
     mret (Qlt_bool ph cc && Qlt_bool (prev_body * strength_factor) curr_body));
  order_blocks ←
    (if strong_up : bool then
       ph ← getitem prev_candle "high"; pl ← getitem prev_candle "low";
       mret (order_blocks ++
             [mkOrderBlock prev_ts prev_ts ph pl (prev_candle "volume") true None false])
     else mret order_blocks);
  let is_prev_bullish := Qlt_bool po pc in
  let is_curr_bearish := Qlt_bool cc co in
  strong_down ← and_then (is_prev_bullish && is_curr_bearish)
    (cl ← getitem curr_candle "low"; pl ← getitem prev_candle "low";
     mret (Qlt_bool cl pl && Qlt_bool (prev_body * strength_factor) curr_body));
  if strong_down : bool then
    ph ← getitem prev_candle "high"; pl ← getitem prev_candle "low";
    mret (order_blocks ++
          [mkOrderBlock prev_ts prev_ts ph pl (prev_candle "volume") false None false])
  else mret order_blocks.

Definition identify_order_blocks (ohlcv_data : DataFrame) (strength_factor : Q)
    : result (list OrderBlock) :=
  match _ensure_datetime_index_and_columns ohlcv_data with
  | Raise (ValueError _) => Ok []
  | Raise e => Raise e
  | Ok df =>
      match index df with
      | ObjectIndex _ _ => Ok []
      | DatetimeIndex ts =>
          for_each (order_blocks_body df ts strength_factor) [] (seq 1 (len df - 1))
      end
  end.

(** One pass of the loop of [identify_fair_value_gaps], at index [i]. *)
Definition fair_value_gaps_body (df : DataFrame) (ts : nat → Timestamp)
    (fvgs : list FairValueGap) (i : nat) : result (list FairValueGap) :=
  let c0 := iloc df i in
  let c2 := iloc df (i + 2) in
  let c0_ts := _get_timestamp_from_index (ts i) in
  let c2_ts := _get_timestamp_from_index (ts (i + 2)%nat) in
  c0_low ← getitem c0 "low"; c2_high ← getitem c2 "high";
  if Qlt_bool c2_high c0_low then
    mret (fvgs ++ [mkFairValueGap c0_ts c2_ts c0_low c2_high true None None])
  else
    c0_high ← getitem c0 "high"; c2_low ← getitem c2 "low";
    if Qlt_bool c0_high c2_low then
      mret (fvgs ++ [mkFairValueGap c0_ts c2_ts c2_low c0_high false None None])
    else mret fvgs.

Definition identify_fair_value_gaps (ohlcv_data : DataFrame) : result (list FairValueGap) :=
  match _ensure_datetime_index_and_columns ohlcv_data with
  | Raise (ValueError _) => Ok []
  | Raise e => Raise e
  | Ok df =>
      match index df with
      | ObjectIndex _ _ => Ok []
      | DatetimeIndex ts =>
          if (len df <? 3)%nat then Ok []
          else for_each (fair_value_gaps_body df ts) [] (seq 0 (len df - 2))
      end
  end.

(** ** strategies/base_strategy.py *)

Definition Signals : Type := list string.

Class BaseStrategy (S : Type) : Type := {
  generate_signals : S → DataFrame → result Signals
}.

Inductive Position : Type := PosNone | PosLong | PosShort.

#[global] Instance Position_eq_dec : EqDecision Position.
Proof. solve_decision. Defined.

(** [['hold'] * len(ohlcv_data)] *)
Definition all_hold (df : DataFrame) : Signals := replicate (len df) "hold".

(** The strategies' own index conversion: [None] when [pd.to_datetime] fails. *)
Definition strategy_index (df : DataFrame) : option (nat → Timestamp) :=
  match index df with
  | DatetimeIndex ts => Some ts
  | ObjectIndex _ parsed => parsed
  end.

Definition with_index (df : DataFrame) (ts : nat → Timestamp) : DataFrame :=
  {| len := len df; index := DatetimeIndex ts; columns := columns df |}.

(** ** strategies/example_strategy_1.py *)

Record ExampleStrategy1 : Type := mkExampleStrategy1 {
  proximity_factor : Q
}.

Record OBState : Type := mkOBState {
  ob_signals : Signals;
  active_bullish_ob : option OrderBlock;
  active_bearish_ob : option OrderBlock;
  ob_position : Position
}.

(** The scan [for ob in order_blocks] that refreshes the active blocks. *)
Definition track_order_block (current_time : Timestamp)
    (active : option OrderBlock * option OrderBlock) (ob : OrderBlock)
    : option OrderBlock * option OrderBlock :=
  let newer (a : option OrderBlock) :=
    match a with
    | None => true
    | Some a => (ob_start_time a <? ob_start_time ob)%Z
    end in
  if (ob_start_time ob <=? current_time)%Z then
    if ob_is_bullish ob && newer active.1 then (Some ob, active.2)
    else if negb (ob_is_bullish ob) && newer active.2 then (active.1, Some ob)
    else active
  else active.

Definition fired (st : OBState) (i : nat) (signal : string) (pos : Position) : OBState :=
  {| ob_signals := <[i := signal]> (ob_signals st);
     active_bullish_ob := None;
     active_bearish_ob := None;
     ob_position := pos |}.

Definition strategy1_body (df : DataFrame) (ts : nat → Timestamp)
    (order_blocks : list OrderBlock) (st : OBState) (i : nat) : result OBState :=
  let current_candle := iloc df i in
  let current_time := ts i in
  let active := foldl (track_order_block current_time)
                      (active_bullish_ob st, active_bearish_ob st) order_blocks in
  let st := {| ob_signals := ob_signals st;
               active_bullish_ob := active.1;
               active_bearish_ob := active.2;
               ob_position := ob_position st |} in
  let pos := ob_position st in
  enter_long ←
    (match active_bullish_ob st with
     | Some ob =>
         and_then (bool_decide (pos = PosNone) || bool_decide (pos = PosShort))
           (low ← getitem current_candle "low";
            and_then (Qle_bool low (ob_high ob))
              (high ← getitem current_candle "high"; mret (Qle_bool (ob_low ob) high)))
     | None => mret false
     end);
  if enter_long : bool then mret (fired st i "buy" PosLong) else
  enter_short ←
    (match active_bearish_ob st with
     | Some ob =>
         and_then (bool_decide (pos = PosNone) || bool_decide (pos = PosLong))
           (high ← getitem current_candle "high";
            and_then (Qle_bool (ob_low ob) high)
              (low ← getitem current_candle "low"; mret (Qle_bool low (ob_high ob))))
     | None => mret false
     end);
  if enter_short : bool then mret (fired st i "sell" PosShort) else
  exit_long ←
    (match active_bearish_ob st with
     | Some ob =>
         and_then (bool_decide (pos = PosLong))
           (high ← getitem current_candle "high"; mret (Qle_bool (ob_low ob) high))
     | None => mret false
     end);
  if exit_long : bool then mret (fired st i "sell" PosNone) else
  exit_short ←
    (match active_bullish_ob st with
     | Some ob =>
         and_then (bool_decide (pos = PosShort))
           (low ← getitem current_candle "low"; mret (Qle_bool low (ob_high ob)))
     | None => mret false
     end);
  if exit_short : bool then mret (fired st i "buy" PosNone) else mret st.

Definition strategy1_generate_signals (self : ExampleStrategy1) (ohlcv_data : DataFrame)
    : result Signals :=
  let signals := all_hold ohlcv_data in
  if (len ohlcv_data <? 2)%nat then Ok signals
  else
    match strategy_index ohlcv_data with
    | None => Ok signals
    | Some ts =>
        let ohlcv_data := with_index ohlcv_data ts in
        order_blocks ← identify_order_blocks ohlcv_data default_strength_factor;
        st ← for_each (strategy1_body ohlcv_data ts order_blocks)
                      (mkOBState signals None None PosNone) (seq 0 (len ohlcv_data));
        mret (ob_signals st)
    end.

#[global] Instance ExampleStrategy1_strategy : BaseStrategy ExampleStrategy1 :=
  {| generate_signals := strategy1_generate_signals |}.

(** ** strategies/example_strategy_2.py *)

Record ExampleStrategy2 : Type := mkExampleStrategy2 {
  entry_fill_ratio : Q
}.

(** The detected gaps are shared objects: the active gaps are references
    into the list (positions), and marking a gap filled updates the list. *)
Record FVGState : Type := mkFVGState {
  fvg_signals : Signals;
  fair_value_gaps : list FairValueGap;
  active_bullish_fvg : option nat;
  active_bearish_fvg : option nat;
  fvg_position : Position
}.

Definition track_fair_value_gap (gaps : list FairValueGap) (current_time : Timestamp)
    (active : option nat * option nat) (k : nat) : option nat * option nat :=
  match gaps !! k with
  | Some fvg =>
      if (fvg_end_time fvg <? current_time)%Z then
        if fvg_is_bullish fvg then (Some k, active.2) else (active.1, Some k)
      else active
  | None => active
  end.

Definition set_filled_time (t : Timestamp) (fvg : FairValueGap) : FairValueGap :=
  {| fvg_start_time := fvg_start_time fvg;
     fvg_end_time := fvg_end_time fvg;
     fvg_high := fvg_high fvg;
     fvg_low := fvg_low fvg;
     fvg_is_bullish := fvg_is_bullish fvg;
     fvg_filled_time := Some t;
     fvg_partially_filled_level := fvg_partially_filled_level fvg |}.

(** An active gap that is not yet filled, with its position in the list. *)
Definition unfilled (gaps : list FairValueGap) (active : option nat) : option (nat * FairValueGap) :=
  k ← active; fvg ← gaps !! k;
  if fvg_filled fvg then None else Some (k, fvg).

Definition bullish_target (self : ExampleStrategy2) (fvg : FairValueGap) : Q :=
  fvg_high fvg - (fvg_high fvg - fvg_low fvg) * entry_fill_ratio self.

Definition bearish_target (self : ExampleStrategy2) (fvg : FairValueGap) : Q :=
  fvg_low fvg + (fvg_high fvg - fvg_low fvg) * entry_fill_ratio self.

Definition strategy2_body (self : ExampleStrategy2) (df : DataFrame) (ts : nat → Timestamp)
    (st : FVGState) (i : nat) : result FVGState :=
  let current_candle := iloc df i in
  let current_time := ts i in
  let gaps := fair_value_gaps st in
  let active := foldl (track_fair_value_gap gaps current_time)
                      (active_bullish_fvg st, active_bearish_fvg st)
                      (seq 0 (length gaps)) in
  let pos := fvg_position st in
  let act (k : nat) (signal : string) (pos : Position) (bull bear : option nat) :=
    {| fvg_signals := <[i := signal]> (fvg_signals st);
       fair_value_gaps := alter (set_filled_time current_time) k gaps;
       active_bullish_fvg := bull;
       active_bearish_fvg := bear;
       fvg_position := pos |} in
  enter_long ←
    (match unfilled gaps active.1 with
     | Some (k, fvg) =>
         hit ← and_then (bool_decide (pos = PosNone) || bool_decide (pos = PosShort))
           (low ← getitem current_candle "low";
            and_then (Qle_bool low (bullish_target self fvg))
              (low ← getitem current_candle "low"; mret (Qle_bool (fvg_low fvg) low)));
         mret (if hit : bool then Some k else None)
     | None => mret None
     end);
  match enter_long with
  | Some k => mret (act k "buy" PosLong active.1 None)
  | None =>
  enter_short ←
    (match unfilled gaps active.2 with
     | Some (k, fvg) =>
         hit ← and_then (bool_decide (pos = PosNone) || bool_decide (pos = PosLong))
           (high ← getitem current_candle "high";
            and_then (Qle_bool (bearish_target self fvg) high)
              (high ← getitem current_candle "high"; mret (Qle_bool high (fvg_high fvg))));
         mret (if hit : bool then Some k else None)
     | None => mret None
     end);
  match enter_short with
  | Some k => mret (act k "sell" PosShort None active.2)
  | None =>
  exit_long ←
    (match unfilled gaps active.2 with
     | Some (k, fvg) =>
         hit ← and_then (bool_decide (pos = PosLong))
           (high ← getitem current_candle "high";
            mret (Qle_bool (bearish_target self fvg) high));
         mret (if hit : bool then Some k else None)
     | None => mret None
     end);
  match exit_long with
  | Some k => mret (act k "sell" PosNone None active.2)
  | None =>
  exit_short ←
    (match unfilled gaps active.1 with
     | Some (k, fvg) =>
         hit ← and_then (bool_decide (pos = PosShort))
           (low ← getitem current_candle "low";
            mret (Qle_bool low (bullish_target self fvg)));
         mret (if hit : bool then Some k else None)
     | None => mret None
     end);
  match exit_short with
  | Some k => mret (act k "buy" PosNone active.1 None)
  | None =>
      mret {| fvg_signals := fvg_signals st;
              fair_value_gaps := gaps;
              active_bullish_fvg := active.1;
              active_bearish_fvg := active.2;
              fvg_position := pos |}
  end end end end.

Definition strategy2_generate_signals (self : ExampleStrategy2) (ohlcv_data : DataFrame)
    : result Signals :=
  let signals := all_hold ohlcv_data in
  if (len ohlcv_data <? 3)%nat then Ok signals
  else
    match strategy_index ohlcv_data with
    | None => Ok signals
    | Some ts =>
        let ohlcv_data := with_index ohlcv_data ts in
        gaps ← identify_fair_value_gaps ohlcv_data;
        st ← for_each (strategy2_body self ohlcv_data ts)
                      (mkFVGState signals gaps None None PosNone) (seq 0 (len ohlcv_data));
        mret (fvg_signals st)
    end.

#[global] Instance ExampleStrategy2_strategy : BaseStrategy ExampleStrategy2 :=
  {| generate_signals := strategy2_generate_signals |}.

(** ** Cells of a float column *)

Inductive cell : Type :=
| Finite (q : Q)
| PosInf
| NegInf
| NaN.

Definition cell_neg (a : cell) : cell :=
  match a with
  | Finite x => Finite (- x)
  | PosInf => NegInf
  | NegInf => PosInf
  | NaN => NaN
  end.

Definition cell_add (a b : cell) : cell :=
  match a, b with
  | NaN, _ | _, NaN => NaN
  | Finite x, Finite y => Finite (x + y)
  | PosInf, NegInf | NegInf, PosInf => NaN
  | PosInf, _ | _, PosInf => PosInf
  | NegInf, _ | _, NegInf => NegInf
  end.

Definition cell_sub (a b : cell) : cell := cell_add a (cell_neg b).

(** The infinity of the sign of [x], NaN when [x] is zero. *)
Definition signed_inf (x : Q) (flip : bool) : cell :=
  if Qeq_bool x 0 then NaN
  else if xorb (Qlt_bool 0 x) flip then PosInf else NegInf.

Definition cell_mul (a b : cell) : cell :=
  match a, b with
  | NaN, _ | _, NaN => NaN
  | Finite x, Finite y => Finite (x * y)
  | Finite x, PosInf | PosInf, Finite x => signed_inf x false
  | Finite x, NegInf | NegInf, Finite x => signed_inf x true
  | PosInf, PosInf | NegInf, NegInf => PosInf
  | PosInf, NegInf | NegInf, PosInf => NegInf
  end.

(** Division as numpy performs it: a zero divisor gives an infinity or NaN. *)
Definition cell_div (a b : cell) : cell :=
  match a, b with
  | NaN, _ | _, NaN => NaN
  | Finite x, Finite y => if Qeq_bool y 0 then signed_inf x false else Finite (x / y)
  | Finite _, _ => Finite 0
  | PosInf, Finite y => if Qlt_bool y 0 then NegInf else PosInf
  | NegInf, Finite y => if Qlt_bool y 0 then PosInf else NegInf
  | _, _ => NaN
  end.

(** [a <= b]; false as soon as one side is NaN. *)
Definition cell_leb (a b : cell) : bool :=
  match a, b with
  | NaN, _ | _, NaN => false
  | NegInf, _ | _, PosInf => true
  | Finite x, Finite y => Qle_bool x y
  | _, _ => false
  end.

(** [a == b]; false as soon as one side is NaN. *)
Definition cell_eqb (a b : cell) : bool :=
  match a, b with
  | Finite x, Finite y => Qeq_bool x y
  | PosInf, PosInf | NegInf, NegInf => true
  | _, _ => false
  end.

(** Maximum and minimum that skip NaN, as the pandas reductions do. *)
Definition cell_max (a b : cell) : cell :=
  match a, b with
  | NaN, c | c, NaN => c
  | _, _ => if cell_leb a b then b else a
  end.

Definition cell_min (a b : cell) : cell :=
  match a, b with
  | NaN, c | c, NaN => c
  | _, _ => if cell_leb a b then a else b
  end.

(** ** core/backtester.py: state *)

Record TradeRecord : Type := mkTradeRecord {
  tr_timestamp : Z;
  tr_type : string;
  tr_price : Q;
  tr_size : Q;
  tr_commission : Q;
  tr_pnl : Q;
  tr_cash : Q;
  tr_portfolio_value : Q
}.

(** A row of [positions_df]. *)
Record ValuationRow : Type := mkValuationRow {
  signal : option string;
  position_qty : cell;
  entry_price : cell;
  trade_pnl : cell;
  cash : cell;
  holdings_value : cell;
  portfolio_value : cell
}.

Record Backtester (S : Type) : Type := mkBacktester {
  ohlcv_data : DataFrame;
  strategy : S;
  initial_capital : Q;
  commission_rate : Q;
  slippage_rate : Q;
  default_position_size : Q;
  execution_price_type : string
}.
Arguments mkBacktester {S}.
Arguments ohlcv_data {S}.
Arguments strategy {S}.
Arguments initial_capital {S}.
Arguments commission_rate {S}.
Arguments slippage_rate {S}.
Arguments default_position_size {S}.
Arguments execution_price_type {S}.

(** The tracking structures of a [Backtester].  [positions_df] has the index
    of [ohlcv_data]; its rows are read and written by position. *)
Record BacktesterState : Type := mkBacktesterState {
  positions_df : nat → ValuationRow;
  trade_log : list TradeRecord;
  current_cash : Q;
  current_position_qty : Q;
  avg_entry_price : Q
}.

Definition set_row (i : nat) (f : ValuationRow → ValuationRow) (st : BacktesterState)
    : BacktesterState :=
  {| positions_df := <[i := f (positions_df st i)]> (positions_df st);
     trade_log := trade_log st;
     current_cash := current_cash st;
     current_position_qty := current_position_qty st;
     avg_entry_price := avg_entry_price st |}.

Definition set_all_rows (f : nat → ValuationRow → ValuationRow) (st : BacktesterState)
    : BacktesterState :=
  {| positions_df := λ i, f i (positions_df st i);
     trade_log := trade_log st;
     current_cash := current_cash st;
     current_position_qty := current_position_qty st;
     avg_entry_price := avg_entry_price st |}.

(** ** A state and exception monad for the engine *)

Definition M (A : Type) : Type := BacktesterState → result A * BacktesterState.

#[global] Instance M_ret : MRet M := λ A a st, (Ok a, st).
#[global] Instance M_bind : MBind M := λ A B f m st,
  match m st with
  | (Ok a, st') => f a st'
  | (Raise e, st') => (Raise e, st')
  end.

Definition raise {A : Type} (e : exn) : M A := λ st, (Raise e, st).
Definition lift {A : Type} (r : result A) : M A := λ st, (r, st).
Definition gets {A : Type} (f : BacktesterState → A) : M A := λ st, (Ok (f st), st).
Definition modify (f : BacktesterState → BacktesterState) : M unit := λ st, (Ok (), f st).

(** [for i in idxs: body(i)] *)
Fixpoint for_bars (body : nat → M unit) (idxs : list nat) : M unit :=
  match idxs with
  | [] => mret ()
  | i :: rest => body i ;; for_bars body rest
  end.

(** ** core/backtester.py: construction *)

Definition required_cols : list string := ["open"; "high"; "low"; "close"].

Definition nan_row : ValuationRow := mkValuationRow None NaN NaN NaN NaN NaN NaN.

Definition Backtester_init {S : Type} (ohlcv_data : DataFrame) (strategy_instance : S)
    (initial_capital commission_bps slippage_bps default_position_size : Q)
    (execution_price_type : string) : result (Backtester S * BacktesterState) :=
  if negb (isinstance_DatetimeIndex (index ohlcv_data)) then
    Raise (ValueError "ohlcv_data must be a pandas DataFrame with a DatetimeIndex.")
  else if negb (forallb (λ col, in_columns col ohlcv_data) required_cols) then
    Raise (ValueError "ohlcv_data must contain ['open', 'high', 'low', 'close'] columns.")
  else if bool_decide (execution_price_type = "next_open")
          && negb (in_columns "open" ohlcv_data) then
    Raise (ValueError "ohlcv_data must contain 'open' column for 'next_open' execution_price_type.")
  else
    Ok ({| ohlcv_data := ohlcv_data;
           strategy := strategy_instance;
           initial_capital := initial_capital;
           commission_rate := commission_bps / 10000;
           slippage_rate := slippage_bps / 10000;
           default_position_size := default_position_size;
           execution_price_type := lower execution_price_type |},
        {| positions_df := λ _, nan_row;
           trade_log := [];
           current_cash := initial_capital;
           current_position_qty := 0;
           avg_entry_price := 0 |}).

(** ** core/backtester.py: execution *)

Section Engine.
Context {S : Type} `{BaseStrategy S}.

(** The slippage step of [_get_execution_price]. *)
Definition apply_slippage (self : Backtester S) (signal_type : option string)
    (intended_price : Q) : Q :=
  if bool_decide (signal_type = Some "buy") then
    intended_price * (1 + slippage_rate self)
  else if bool_decide (signal_type = Some "sell") then
    intended_price * (1 - slippage_rate self)
  else intended_price.

Definition _get_execution_price (self : Backtester S) (current_bar_index : nat)
    (signal_type : option string) : result (option Q) :=
  if bool_decide (execution_price_type self = "next_open") then
    if (current_bar_index + 1 <? len (ohlcv_data self))%nat then
      intended_price ← getitem (iloc (ohlcv_data self) (current_bar_index + 1)) "open";
      mret (Some (apply_slippage self signal_type intended_price))
    else Ok None
  else
    intended_price ← getitem (iloc (ohlcv_data self) current_bar_index) "close";
    mret (Some (apply_slippage self signal_type intended_price)).

Definition _calculate_commission (self : Backtester S) (trade_value : Q) : Q :=
  Qabs trade_value * commission_rate self.

(** The four trade legs.  Each takes the state before the leg and gives the
    state after it; the closing legs also give the realised [trade_pnl]. *)

Definition cover_short (self : Backtester S) (timestamp : Z) (execution_price : Q)
    (st : BacktesterState) : Q * BacktesterState :=
  if Qlt_bool (current_position_qty st) 0 then
    let qty_to_trade := Qabs (current_position_qty st) in
    let trade_value := qty_to_trade * execution_price in
    let commission := _calculate_commission self trade_value in
    let trade_pnl := qty_to_trade * (avg_entry_price st - execution_price) - commission in
    let cash := current_cash st - (trade_value + commission) in
    (trade_pnl,
     {| positions_df := positions_df st;
        trade_log := trade_log st ++
          [mkTradeRecord timestamp "cover_short" execution_price qty_to_trade
                         commission trade_pnl cash cash];
        current_cash := cash;
        current_position_qty := 0;
        avg_entry_price := 0 |})
  else (0, st).

Definition open_long (self : Backtester S) (timestamp : Z) (execution_price : Q)
    (current_close_price : Q) (st : BacktesterState) : BacktesterState :=
  if Qeq_bool (current_position_qty st) 0 then
    let qty_to_trade := default_position_size self in
    let trade_value := qty_to_trade * execution_price in
    let commission := _calculate_commission self trade_value in
    if Qle_bool (trade_value + commission) (current_cash st) then
      let cash := current_cash st - (trade_value + commission) in
      let avg :=
        if negb (Qeq_bool (current_position_qty st) 0) then
          (avg_entry_price st * current_position_qty st + execution_price * qty_to_trade)
          / (current_position_qty st + qty_to_trade)
        else execution_price in
      let qty := current_position_qty st + qty_to_trade in
      {| positions_df := positions_df st;
         trade_log := trade_log st ++
           [mkTradeRecord timestamp "buy_long" execution_price qty_to_trade
                          commission 0 cash (cash + qty * current_close_price)];
         current_cash := cash;
         current_position_qty := qty;
         avg_entry_price := avg |}
    else st
  else st.

Definition close_long (self : Backtester S) (timestamp : Z) (execution_price : Q)
    (st : BacktesterState) : Q * BacktesterState :=
  if Qlt_bool 0 (current_position_qty st) then
    let qty_to_trade := current_position_qty st in
    let trade_value := qty_to_trade * execution_price in
    let commission := _calculate_commission self trade_value in
    let trade_pnl := qty_to_trade * (execution_price - avg_entry_price st) - commission in
    let cash := current_cash st + (trade_value - commission) in
    (trade_pnl,
     {| positions_df := positions_df st;
        trade_log := trade_log st ++
          [mkTradeRecord timestamp "sell_long" execution_price qty_to_trade
                         commission trade_pnl cash cash];
        current_cash := cash;
        current_position_qty := 0;
        avg_entry_price := 0 |})
  else (0, st).

Definition open_short (self : Backtester S) (timestamp : Z) (execution_price : Q)
    (current_close_price : Q) (st : BacktesterState) : BacktesterState :=
  if Qeq_bool (current_position_qty st) 0 then
    let qty_to_trade := default_position_size self in
    let trade_value := qty_to_trade * execution_price in
    let commission := _calculate_commission self trade_value in
    let cash := current_cash st + (trade_value - commission) in
    let avg :=
      if negb (Qeq_bool (current_position_qty st) 0) then
        (avg_entry_price st * Qabs (current_position_qty st) + execution_price * qty_to_trade)
        / (Qabs (current_position_qty st) + qty_to_trade)
      else execution_price in
    let qty := current_position_qty st - qty_to_trade in
    {| positions_df := positions_df st;
       trade_log := trade_log st ++
         [mkTradeRecord timestamp "sell_short" execution_price qty_to_trade
                        commission 0 cash (cash + qty * current_close_price)];
       current_cash := cash;
       current_position_qty := qty;
       avg_entry_price := avg |}
  else st.

(** The branch on the signal, once an execution price is known. *)
Definition handle_signal (self : Backtester S) (timestamp : Z) (signal : option string)
    (execution_price current_close_price : Q) (st : BacktesterState)
    : Q * BacktesterState :=
  if bool_decide (signal = Some "buy") then
    let '(trade_pnl, st) := cover_short self timestamp execution_price st in
    (trade_pnl, open_long self timestamp execution_price current_close_price st)
  else if bool_decide (signal = Some "sell") then
    let '(trade_pnl, st) := close_long self timestamp execution_price st in
    (trade_pnl, open_short self timestamp execution_price current_close_price st)
  else (0, st).

(** The writes to the row of the current bar. *)

Definition carry_forward (i : nat) (st : BacktesterState) : BacktesterState :=
  set_row i (λ row,
    {| signal := signal row;
       position_qty := Finite (current_position_qty st);
       entry_price := Finite (avg_entry_price st);
       trade_pnl := trade_pnl row;
       cash := cash (positions_df st (i - 1));
       holdings_value := holdings_value row;
       portfolio_value := portfolio_value row |}) st.

Definition mark_to_market (i : nat) (current_close_price : Q) (st : BacktesterState)
    : BacktesterState :=
  set_row i (λ row,
    let holdings := Finite (current_position_qty st * current_close_price) in
    {| signal := signal row;
       position_qty := position_qty row;
       entry_price := entry_price row;
       trade_pnl := trade_pnl row;
       cash := cash row;
       holdings_value := holdings;
       portfolio_value := cell_add (cash row) holdings |}) st.

Definition snapshot (i : nat) (current_close_price : Q) (st : BacktesterState)
    : BacktesterState :=
  mark_to_market i current_close_price
    (if (0 <? i)%nat then carry_forward i st else st).

Definition record_row (i : nat) (current_close_price : Q) (pnl : Q) (st : BacktesterState)
    : BacktesterState :=
  set_row i (λ row,
    let holdings := Finite (current_position_qty st * current_close_price) in
    {| signal := signal row;
       position_qty := Finite (current_position_qty st);
       entry_price :=
         if negb (Qeq_bool (current_position_qty st) 0)
         then Finite (avg_entry_price st) else NaN;
       trade_pnl := if negb (Qeq_bool pnl 0) then Finite pnl else NaN;
       cash := Finite (current_cash st);
       holdings_value := holdings;
       portfolio_value := cell_add (Finite (current_cash st)) holdings |}) st.

(** The body of the loop of [run] for bar [i]. *)
Definition process_bar (self : Backtester S) (i : nat) (timestamp : Z) : M unit :=
  signal ← gets (λ st, signal (positions_df st i));
  current_close_price ← lift (getitem (iloc (ohlcv_data self) i) "close");
  modify (snapshot i current_close_price);;
  execution_price ← lift (_get_execution_price self i signal);
  match execution_price with
  | None => mret ()
  | Some execution_price =>
      modify (λ st,
        let '(pnl, st) :=
          handle_signal self timestamp signal execution_price current_close_price st in
        record_row i current_close_price pnl st)
  end.
End Engine.

(** ** core/backtester.py: metrics and the run *)

(** The Sharpe ratio of the source needs a square root and a sample standard
    deviation of floats; it is left out of the record. *)
Record Metrics : Type := mkMetrics {
  m_initial_capital : Q;
  final_portfolio_value : cell;
  total_pnl_realized : cell;
  total_return_pct : cell;
  num_closed_trades : nat;
  winning_trades : nat;
  losing_trades : nat;
  win_rate_pct : Q;
  max_drawdown_pct : cell;
  m_trade_log : list TradeRecord
}.

(** [series.expanding(min_periods=1).max()], from the running maximum [peak]. *)
Fixpoint expanding_max_from (peak : cell) (vs : list cell) : list cell :=
  match vs with
  | [] => []
  | v :: rest => let peak := cell_max peak v in peak :: expanding_max_from peak rest
  end.

Definition expanding_max (vs : list cell) : list cell := expanding_max_from NaN vs.

(** [(portfolio_values - peak) / peak] *)
Definition drawdown (portfolio_values : list cell) : list cell :=
  zip_with (λ v peak, cell_div (cell_sub v peak) peak)
           portfolio_values (expanding_max portfolio_values).

(** [series.min()], [series.sum(skipna=True)] *)
Definition series_min (vs : list cell) : cell := foldl cell_min NaN vs.

Definition series_sum (vs : list cell) : cell :=
  foldl (λ acc v, match v with NaN => acc | _ => cell_add acc v end) (Finite 0) vs.

Definition max_drawdown (portfolio_values : list cell) : cell :=
  cell_mul (series_min (drawdown portfolio_values)) (Finite 100).

(** The first [n] cells of a column of [positions_df]. *)
Definition column_cells (f : ValuationRow → cell) (n : nat) (st : BacktesterState)
    : list cell :=
  (λ i, f (positions_df st i)) <$> seq 0 n.

(** One pass of the loop over [trade_log] that counts the closed trades. *)
Definition count_trade (counts : nat * nat * nat) (trade : TradeRecord) : nat * nat * nat :=
  let '(num_closed_trades, winning_trades, losing_trades) := counts in
  if negb (Qeq_bool (tr_pnl trade) 0) then
    if Qlt_bool 0 (tr_pnl trade) then
      (num_closed_trades + 1, winning_trades + 1, losing_trades)%nat
    else if Qlt_bool (tr_pnl trade) 0 then
      (num_closed_trades + 1, winning_trades, losing_trades + 1)%nat
    else (num_closed_trades + 1, winning_trades, losing_trades)%nat
  else counts.

Section Run.
Context {S : Type} `{BaseStrategy S}.

Definition calculate_performance_metrics (self : Backtester S) (st : BacktesterState)
    : Metrics :=
  let n := len (ohlcv_data self) in
  let final_portfolio_value :=
    if (n =? 0)%nat then Finite (initial_capital self)
    else portfolio_value (positions_df st (n - 1)) in
  let total_pnl_from_trades := series_sum (column_cells trade_pnl n st) in
  let '(num_closed_trades, winning_trades, losing_trades) :=
    foldl count_trade (0, 0, 0)%nat (trade_log st) in
  let win_rate :=
    if (0 <? num_closed_trades)%nat
    then inject_Z (Z.of_nat winning_trades) / inject_Z (Z.of_nat num_closed_trades) * 100
    else 0 in
  {| m_initial_capital := initial_capital self;
     final_portfolio_value := final_portfolio_value;
     total_pnl_realized := total_pnl_from_trades;
     total_return_pct :=
       if Qlt_bool 0 (initial_capital self) then
         cell_mul (cell_sub (cell_div final_portfolio_value (Finite (initial_capital self)))
                            (Finite 1)) (Finite 100)
       else Finite 0;
     num_closed_trades := num_closed_trades;
     winning_trades := winning_trades;
     losing_trades := losing_trades;
     win_rate_pct := win_rate;
     max_drawdown_pct := max_drawdown (column_cells portfolio_value n st);
     m_trade_log := trade_log st |}.

(** The column assignments at the start of [run]. *)
Definition init_rows (self : Backtester S) (signals : Signals) (st : BacktesterState)
    : BacktesterState :=
  set_all_rows (λ i row,
    {| signal := signals !! i;
       position_qty := position_qty row;
       entry_price := entry_price row;
       trade_pnl := trade_pnl row;
       cash := Finite (initial_capital self);
       holdings_value := Finite 0;
       portfolio_value := Finite (initial_capital self) |}) st.

(** [self.ohlcv_data['close'].iloc[0]] *)
Definition first_close (df : DataFrame) : result Q :=
  match column df "close" with
  | None => Raise (KeyError "close")
  | Some s => if (len df =? 0)%nat then Raise IndexError else Ok (values s 0)
  end.

Definition run_loop (self : Backtester S) (idxs : list nat) : M unit :=
  for_bars (λ i, process_bar self i (index_at (index (ohlcv_data self)) i)) idxs.

Definition run (self : Backtester S) : M Metrics :=
  signals ← lift (generate_signals (strategy self) (ohlcv_data self));
  if negb (length signals =? len (ohlcv_data self))%nat then
    raise (ValueError "Number of signals must match number of data points.")
  else
    modify (init_rows self signals);;
    last_price ← lift (first_close (ohlcv_data self));
    run_loop self (seq 0 (len (ohlcv_data self)));;
    gets (calculate_performance_metrics self).
End Run.

(** ** Vocabulary of the specification *)

(** The label a column carries after the renaming step. *)
Definition standard_name (col : string) : string :=
  let col_lower := lower col in
  if bool_decide (col_lower ∈ ["open"; "high"; "low"; "close"; "volume"])
  then col_lower else col.

(** A frame misses an essential column after normalisation. *)
Definition missing_essential (df : DataFrame) : Prop :=
  ∃ col, col ∈ essential_cols ∧ col ∉ standard_name <$> labels df.

(** The bar at position [i] of a prepared frame. *)
Definition candle_at (df : DataFrame) (ts : nat → Timestamp) (i : nat) : option Candle :=
  let row := iloc df i in
  o ← row "open"; h ← row "high"; l ← row "low"; c ← row "close";
  Some (mkCandle (ts i) o h l c (default 0 (row "volume"))).

(** The order-block conditions, in the words of the specification. *)
Definition bullish_ob_condition (prev curr : Candle) (strength_factor : Q) : Prop :=
  c_close prev < c_open prev ∧ c_open curr < c_close curr ∧
  c_high prev < c_close curr ∧
  body_size prev * strength_factor < body_size curr.

Definition bearish_ob_condition (prev curr : Candle) (strength_factor : Q) : Prop :=
  c_open prev < c_close prev ∧ c_close curr < c_open curr ∧
  c_low curr < c_low prev ∧
  body_size prev * strength_factor < body_size curr.

Definition bullish_ob_test (prev curr : Candle) (strength_factor : Q) : bool :=
  is_bearish prev && is_bullish curr && Qlt_bool (c_high prev) (c_close curr)
  && Qlt_bool (body_size prev * strength_factor) (body_size curr).

Definition bearish_ob_test (prev curr : Candle) (strength_factor : Q) : bool :=
  is_bullish prev && is_bearish curr && Qlt_bool (c_low curr) (c_low prev)
  && Qlt_bool (body_size prev * strength_factor) (body_size curr).

(** The block over the range of [prev]. *)
Definition block_over (prev : Candle) (volume : option Q) (bullish : bool) : OrderBlock :=
  mkOrderBlock (c_timestamp prev) (c_timestamp prev) (c_high prev) (c_low prev)
               volume bullish None false.

(** What the specification has an adjacent pair emit. *)
Definition pair_blocks (prev curr : Candle) (volume : option Q) (strength_factor : Q)
    : list OrderBlock :=
  (if bullish_ob_test prev curr strength_factor then [block_over prev volume true] else [])
  ++ (if bearish_ob_test prev curr strength_factor then [block_over prev volume false] else []).

Definition bullish_gap (c0 c2 : Candle) : FairValueGap :=
  mkFairValueGap (c_timestamp c0) (c_timestamp c2) (c_low c0) (c_high c2) true None None.

Definition bearish_gap (c0 c2 : Candle) : FairValueGap :=
  mkFairValueGap (c_timestamp c0) (c_timestamp c2) (c_low c2) (c_high c0) false None None.

(** What the specification has a triple emit, from its first and third bar. *)
Definition triple_gaps (c0 c2 : Candle) : list FairValueGap :=
  if Qlt_bool (c_high c2) (c_low c0) then [bullish_gap c0 c2]
  else if Qlt_bool (c_high c0) (c_low c2) then [bearish_gap c0 c2]
  else [].

(** [portfolio_value == cash + position_qty * close_price] on a row. *)
Definition cash_conservation (row : ValuationRow) (close_price : Q) : bool :=
  cell_eqb (portfolio_value row)
           (cell_add (cash row) (cell_mul (position_qty row) (Finite close_price))).

(** The position is flat or one fixed-size unit long or short. *)
Definition position_ok {S : Type} (self : Backtester S) (st : BacktesterState) : Prop :=
  current_position_qty st == - default_position_size self ∨
  current_position_qty st == 0 ∨
  current_position_qty st == default_position_size self.

(** The part of the state that a trade changes. *)
Definition account (st : BacktesterState) : list TradeRecord * Q * Q * Q :=
  (trade_log st, current_cash st, current_position_qty st, avg_entry_price st).

Definition is_finite (c : cell) : Prop := ∃ q, c = Finite q.

Fixpoint strictly_increasing (vs : list Q) : Prop :=
  match vs with
  | x :: (y :: _) as rest => x < y ∧ strictly_increasing rest
  | _ => True
  end.

(** Every entry of the rename map sends a label to its standard name. *)
Definition sound_map (m : gmap string string) : Prop :=
  ∀ k v, m !! k = Some v → v = standard_name k.

Definition renamed (m : gmap string string) (l : string) : string :=
  default l (m !! l).

(** A frame that passed the preparation step has the four price columns. *)
Definition prepared_frame (df : DataFrame) : Prop :=
  ∀ c, c ∈ essential_cols → is_Some (column df c).

(** Drawdown cells: a number that is at most 0; NaN or a zero. *)
Definition nonpositive (d : cell) : Prop := ∃ q, d = Finite q ∧ q <= 0.

Definition zero_or_nan (d : cell) : Prop := d = NaN ∨ ∃ q, d = Finite q ∧ q == 0.

(** Cash and portfolio value are numbers on every row. *)
Definition rows_finite (st : BacktesterState) : Prop :=
  ∀ j, is_finite (cash (positions_df st j)) ∧
       is_finite (portfolio_value (positions_df st j)).

(** The row balances against the close price [c]. *)
Definition conserved (row : ValuationRow) (c : Q) : Prop :=
  ∃ k q, cash row = Finite k ∧ position_qty row = Finite q ∧
         portfolio_value row = Finite (k + q * c).

(** ** Sample data *)

(** A strategy that hands back a prepared signal sequence, like the
    [TestStrategy] of the usage notes in [core/backtester.py]. *)
Record TestStrategy : Type := mkTestStrategy {
  prepared : Signals
}.

#[global] Instance TestStrategy_strategy : BaseStrategy TestStrategy :=
  {| generate_signals := λ self _, Ok (prepared self) |}.

Definition series_of (xs : list Q) : Series :=
  mkSeries (λ i, nth i xs 0) None.

Definition frame_of (opens highs lows closes : list Q) : DataFrame :=
  mkDataFrame (length closes) (DatetimeIndex (λ i, Z.of_nat i))
    [("open", series_of opens); ("high", series_of highs);
     ("low", series_of lows); ("close", series_of closes)].

(** The two bars of the order-block example. *)
Definition ob_example : DataFrame :=
  frame_of [100; 98] [101; 103] [99; 97] [98; 102].

(** A frame without a [high] column. *)
Definition no_high_frame : DataFrame :=
  mkDataFrame 3 (DatetimeIndex (λ i, Z.of_nat i))
    [("Open", series_of [109; 111; 107]); ("low", series_of [110; 109; 106]);
     ("close", series_of [111; 110; 107])].

Definition one_bar : DataFrame := frame_of [100] [101] [99] [100].

Definition two_bars : DataFrame := frame_of [100; 100] [101; 101] [99; 99] [100; 100].

(** Three bars that leave a bullish gap between the first and the third. *)
Definition gap_example : DataFrame :=
  frame_of [109; 111; 107] [112; 112; 108] [110; 109; 106] [111; 110; 107].

(** The tracking structures right after construction. *)
Definition fresh_state (initial_capital : Q) : BacktesterState :=
  mkBacktesterState (λ _, nan_row) [] initial_capital 0 0.

(** An engine with the default costs (2 bps commission, 1 bp slippage) and
    one unit per trade. *)
Definition default_engine (df : DataFrame) (signals : Signals) (initial_capital : Q)
    (execution_price_type : string) : Backtester TestStrategy :=
  mkBacktester df (mkTestStrategy signals) initial_capital
               (2 / 10000) (1 / 10000) 1 execution_price_type.

(** Two bars at 100000 and 200000. *)
Definition rally : DataFrame :=
  frame_of [100000; 200000] [100000; 200000] [100000; 200000] [100000; 200000].

(** The engines and runs of the examples. *)
Definition mismatch_engine : Backtester TestStrategy :=
  default_engine two_bars ["hold"] 100000 "close".

Definition cash_poor_engine : Backtester TestStrategy :=
  default_engine two_bars ["buy"; "hold"] 50 "close".

Definition cash_poor_start : BacktesterState :=
  init_rows cash_poor_engine ["buy"; "hold"] (fresh_state 50).

Definition last_bar_engine : Backtester TestStrategy :=
  default_engine two_bars ["hold"; "buy"] 100000 "next_open".

Definition last_bar_start : BacktesterState :=
  init_rows last_bar_engine ["hold"; "buy"] (fresh_state 100000).

Definition round_trip_engine : Backtester TestStrategy :=
  default_engine two_bars ["buy"; "sell"] 100000 "close".

Definition round_trip_start : BacktesterState :=
  init_rows round_trip_engine ["buy"; "sell"] (fresh_state 100000).

Definition short_rally_engine : Backtester TestStrategy :=
  default_engine rally ["sell"; "hold"] 10 "close".

Definition short_rally_run : result Metrics * BacktesterState :=
  run short_rally_engine (fresh_state 10).

Definition single_bar_engine : Backtester TestStrategy :=
  default_engine one_bar ["hold"] 100000 "next_open".

Definition single_bar_run : result Metrics * BacktesterState :=
  run single_bar_engine (fresh_state 100000).

(** ** Further vocabulary *)

(** The commission of a ledger record is the rate applied to the absolute
    trade value. *)
Definition commission_ok {S : Type} (self : Backtester S) (t : TradeRecord) : Prop :=
  tr_commission t = Qabs (tr_size t * tr_price t) * commission_rate self.

(** An opening record carries no profit and the fixed size; a closing record
    has a positive size and leaves the portfolio in cash. *)
Definition kind_ok {S : Type} (self : Backtester S) (t : TradeRecord) : Prop :=
  (tr_type t = "buy_long" ∨ tr_type t = "sell_short") ∧
    tr_pnl t = 0 ∧ tr_size t = default_position_size self
  ∨ (tr_type t = "cover_short" ∨ tr_type t = "sell_long") ∧
    tr_portfolio_value t = tr_cash t ∧ 0 < tr_size t.

Definition record_ok {S : Type} (self : Backtester S) (t : TradeRecord) : Prop :=
  commission_ok self t ∧ kind_ok self t.

(** A flat position has no entry price. *)
Definition flat_without_entry (st : BacktesterState) : Prop :=
  current_position_qty st == 0 → avg_entry_price st == 0.

(** The mark-to-market value of the account at the price [c]. *)
Definition account_value (st : BacktesterState) (c : Q) : Q :=
  current_cash st + current_position_qty st * c.

(** The costs of an engine are not negative. *)
Definition costs_nonnegative {S : Type} (self : Backtester S) : Prop :=
  0 <= commission_rate self ∧ 0 <= slippage_rate self ∧
  0 <= default_position_size self.

(** The final state of a run, and its metrics. *)
Definition final_state {S : Type} `{BaseStrategy S} (self : Backtester S)
    (st : BacktesterState) : BacktesterState :=
  (run self st).2.

Definition final_metrics {S : Type} `{BaseStrategy S} (self : Backtester S)
    (st : BacktesterState) : Metrics :=
  calculate_performance_metrics self (final_state self st).

(** Accounts holding one unit long, and one unit short, entered at 100. *)
Definition long_state : BacktesterState :=
  mkBacktesterState (λ _, nan_row) [] 1000 1 100.

Definition short_state : BacktesterState :=
  mkBacktesterState (λ _, nan_row) [] 1000 (- (1)) 100.

(** A frame without rows. *)
Definition empty_frame : DataFrame := frame_of [] [] [] [].

Definition empty_engine : Backtester TestStrategy :=
  default_engine empty_frame [] 100000 "close".

(** Signals that call for no trade. *)
Definition no_trade_signals (signals : Signals) : Prop :=
  ("buy" ∉ signals) ∧ ("sell" ∉ signals).

Definition hold_engine : Backtester TestStrategy :=
  default_engine two_bars ["hold"; "wait"] 100000 "close".

(** The cash of the row before bar [i] (of row 0 for the first bar) is the
    cash of the account. *)
Definition cash_carried (i : nat) (st : BacktesterState) : Prop :=
  cash (positions_df st (i - 1)) = Finite (current_cash st).

(** The timestamps of the first [n] rows do not decrease. *)
Definition ascending (ts : nat → Timestamp) (n : nat) : Prop :=
  ∀ i j, (i ≤ j)%nat → (j < n)%nat → (ts i ≤ ts j)%Z.

(** The words a strategy may emit. *)
Definition signal_word (s : string) : Prop :=
  s = "hold" ∨ s = "buy" ∨ s = "sell".

(** The signals are one word per bar. *)
Definition signals_fit (n : nat) (signals : Signals) : Prop :=
  length signals = n ∧ Forall signal_word signals.

(** The bars of the order-block example under capitalised column names,
    followed by a third bar. *)
Definition capitalised_frame : DataFrame :=
  mkDataFrame 3 (DatetimeIndex (λ i, Z.of_nat i))
    [("Open", series_of [100; 98; 102]); ("High", series_of [101; 103; 104]);
     ("Low", series_of [99; 97; 100]); ("Close", series_of [98; 102; 103])].

(** The first strategy has not traded: it is flat and all signals hold. *)
Definition untraded (df : DataFrame) (st : OBState) : Prop :=
  ob_signals st = all_hold df ∧ ob_position st = PosNone.

(** The exceptions for a missing [low] or [high] column. *)
Definition price_KeyError (e : exn) : Prop :=
  e = KeyError "low" ∨ e = KeyError "high".

(** The columns of a frame under their standard names. *)
Definition standard_columns (cols : list (string * Series)) : list (string * Series) :=
  (λ p, (standard_name p.1, p.2)) <$> cols.

(** A label that the renaming step neither produces nor changes. *)
Definition kept_label (c : string) : Prop :=
  ∀ l, standard_name l = c ↔ l = c.

(** The bars of [capitalised_frame] under the standard column names. *)
Definition lower_case_frame : DataFrame :=
  mkDataFrame 3 (DatetimeIndex (λ i, Z.of_nat i))
    [("open", series_of [100; 98; 102]); ("high", series_of [101; 103; 104]);
     ("low", series_of [99; 97; 100]); ("close", series_of [98; 102; 103])].

(** The profit realised by the records of a ledger. *)
Definition ledger_pnl (log : list TradeRecord) : Q :=
  foldr (λ t total, tr_pnl t + total) 0 log.

(** The number in a cell, 0 for a cell without one. *)
Definition cell_value (c : cell) : Q :=
  match c with
  | Finite q => q
  | _ => 0
  end.

Definition cells_total (cs : list cell) : Q :=
  foldr (λ c total, cell_value c + total) 0 cs.

(** A profit cell: NaN, or a number. *)
Definition nan_or_finite (c : cell) : Prop := c = NaN ∨ is_finite c.

(** No realised profit is recorded from row [a] on. *)
Definition no_pnl_from (a : nat) (st : BacktesterState) : Prop :=
  ∀ j, (a ≤ j)%nat → trade_pnl (positions_df st j) = NaN.

(** What opening a long at price [px] takes from the cash: the trade value
    and its commission. *)
Definition entry_cost {S : Type} (self : Backtester S) (px : Q) : Q :=
  default_position_size self * px
  + _calculate_commission self (default_position_size self * px).

(** * Properties *)

(** Arithmetic on [Q] stays folded under [simpl]. *)
#[local] Arguments Qplus : simpl never.
#[local] Arguments Qminus : simpl never.
#[local] Arguments Qmult : simpl never.
#[local] Arguments Qdiv : simpl never.
#[local] Arguments Qopp : simpl never.
#[local] Arguments Qinv : simpl never.
#[local] Arguments Qabs : simpl never.
#[local] Arguments Qle_bool : simpl never.
#[local] Arguments Qeq_bool : simpl never.
#[local] Arguments Qlt_bool : simpl never.

(** ** Comparisons *)

Lemma Qlt_bool_iff (x y : Q) : Qlt_bool x y = true ↔ x < y.
Proof.
  unfold Qlt_bool. rewrite negb_true_iff. split.
  - intros H. apply Qnot_le_lt. intros Hle.
    apply Qle_bool_iff in Hle. congruence.
  - intros H. destruct (Qle_bool y x) eqn:E; [|done].
    apply Qle_bool_iff in E. exfalso. by apply (Qlt_not_le x y).
Qed.

Lemma Qlt_bool_false (x y : Q) : Qlt_bool x y = false ↔ y <= x.
Proof.
  unfold Qlt_bool. rewrite negb_false_iff. apply Qle_bool_iff.
Qed.

Lemma Qle_bool_false (x y : Q) : Qle_bool x y = false ↔ y < x.
Proof.
  rewrite <- Qlt_bool_iff. unfold Qlt_bool. by rewrite negb_true_iff.
Qed.

Lemma Qeq_bool_false (x y : Q) : Qeq_bool x y = false ↔ ¬ x == y.
Proof.
  split.
  - intros H Heq. apply Qeq_bool_iff in Heq. congruence.
  - intros H. destruct (Qeq_bool x y) eqn:E; [|done].
    apply Qeq_bool_iff in E. contradiction.
Qed.


(** ** Frame preparation *)

Lemma rename_entry_eq (m : gmap string string) (c : string) :
  rename_entry m c =
  if bool_decide (lower c ∈ ["open"; "high"; "low"; "close"; "volume"])
  then <[c := lower c]> m else m.
Proof.
  unfold rename_entry.
  destruct (decide (lower c = "open")) as [->|N1];
    [by rewrite bool_decide_true by set_solver|].
  destruct (decide (lower c = "high")) as [->|N2];
    [by rewrite bool_decide_true by set_solver|].
  destruct (decide (lower c = "low")) as [->|N3];
    [by rewrite bool_decide_true by set_solver|].
  destruct (decide (lower c = "close")) as [->|N4];
    [by rewrite bool_decide_true by set_solver|].
  destruct (decide (lower c = "volume")) as [->|N5];
    [by rewrite bool_decide_true by set_solver|].
  rewrite bool_decide_false; [done|].
  intros Hin. repeat (apply elem_of_cons in Hin as [Hin|Hin]; [done|]).
  by apply elem_of_nil in Hin.
Qed.

Lemma sound_map_step m c : sound_map m → sound_map (rename_entry m c).
Proof.
  intros Hm k v. rewrite rename_entry_eq.
  case_bool_decide as Hc; [|apply Hm].
  destruct (decide (k = c)) as [->|Hne].
  - rewrite lookup_insert_eq. intros [= <-].
    unfold standard_name. by rewrite bool_decide_true.
  - rewrite lookup_insert_ne by done. apply Hm.
Qed.

Lemma renamed_head m c :
  sound_map m → renamed (rename_entry m c) c = standard_name c.
Proof.
  intros Hm. unfold renamed. rewrite rename_entry_eq.
  case_bool_decide as Hc.
  - rewrite lookup_insert_eq. simpl. unfold standard_name.
    by rewrite bool_decide_true.
  - destruct (m !! c) as [v|] eqn:E; simpl.
    + by apply Hm.
    + unfold standard_name. by rewrite bool_decide_false.
Qed.

Lemma renamed_step m c l :
  sound_map m → renamed m l = standard_name l →
  renamed (rename_entry m c) l = standard_name l.
Proof.
  intros Hm Hl. destruct (decide (l = c)) as [->|Hne].
  - by apply renamed_head.
  - unfold renamed. rewrite rename_entry_eq.
    case_bool_decide; [|done]. by rewrite lookup_insert_ne.
Qed.

Lemma renamed_foldl (ls : list string) :
  ∀ m l, sound_map m → (l ∈ ls ∨ renamed m l = standard_name l) →
         renamed (foldl rename_entry m ls) l = standard_name l.
Proof.
  induction ls as [|c ls IH]; intros m l Hm Hl; simpl.
  - destruct Hl as [Hl|Hl]; [by apply elem_of_nil in Hl | done].
  - apply IH; [by apply sound_map_step|].
    destruct Hl as [Hl|Hl].
    + apply elem_of_cons in Hl as [->|Hl]; [|by left].
      right. by apply renamed_head.
    + right. by apply renamed_step.
Qed.

Lemma renamed_build (ls : list string) (l : string) :
  l ∈ ls → renamed (build_rename_map ls) l = standard_name l.
Proof.
  intros Hl. apply renamed_foldl; [|by left].
  intros k v. by rewrite lookup_empty.
Qed.

(** The labels of a frame after the renaming step. *)
Lemma labels_rename (df : DataFrame) :
  labels (rename df (build_rename_map (labels df))) = standard_name <$> labels df.
Proof.
  unfold labels, rename. simpl. rewrite <- !list_fmap_compose.
  apply Forall_fmap_ext_1, Forall_forall. intros [l s] Hin. simpl.
  apply renamed_build. unfold labels.
  apply list_elem_of_fmap. exists (l, s). split; [done|].
  by apply list_elem_of_In.
Qed.

(** Setting the index never adds a column. *)
Lemma convert_time_column_labels (df df' : DataFrame) (names : list string) :
  convert_time_column df names = Some df' → labels df' ⊆ labels df.
Proof.
  induction names as [|c names IH]; simpl; [done|].
  destruct (in_columns c df); [|done].
  destruct (column df c ≫= to_datetime) as [ts|]; [|done].
  intros [= <-]. unfold labels, set_index. simpl.
  intros l Hl. apply list_elem_of_fmap in Hl as [p [-> Hp]].
  apply list_elem_of_filter in Hp as [_ Hp].
  apply list_elem_of_fmap. by exists p.
Qed.

Lemma ensure_index_labels (df : DataFrame) : labels (ensure_index df) ⊆ labels df.
Proof.
  unfold ensure_index. destruct (index df) as [ts|raw parsed]; [done|].
  destruct (convert_time_column df time_cols) as [df'|] eqn:E.
  - by apply (convert_time_column_labels df df' time_cols).
  - by destruct parsed.
Qed.

Lemma ensure_raises (df : DataFrame) :
  missing_essential df →
  _ensure_datetime_index_and_columns df =
  Raise (ValueError "Essential OHLC columns missing. Required: ['open', 'high', 'low', 'close']").
Proof.
  intros (col & Hcol & Hmiss). unfold _ensure_datetime_index_and_columns.
  destruct (forallb _ essential_cols) eqn:E; [|done].
  exfalso. rewrite forallb_forall in E.
  specialize (E col). rewrite <- list_elem_of_In in E. specialize (E Hcol).
  unfold in_columns in E. apply bool_decide_eq_true in E.
  rewrite labels_rename in E.
  apply Hmiss. apply list_elem_of_fmap in E as (l & -> & Hl).
  apply list_elem_of_fmap. exists l. split; [done|].
  by apply ensure_index_labels.
Qed.


Lemma no_high_frame_missing : missing_essential no_high_frame.
Proof.
  exists "high". split; [set_solver|]. vm_compute. 
  intros Hin. repeat (apply elem_of_cons in Hin as [Hin|Hin]; [discriminate|]).
  by apply elem_of_nil in Hin.
Qed.



(** ** Detectors *)

Lemma find_column_is_Some (c : string) (cols : list (string * Series)) :
  c ∈ cols.*1 → is_Some (find_column c cols).
Proof.
  induction cols as [|[l s] cols IH]; simpl.
  - intros Hin. by apply elem_of_nil in Hin.
  - intros Hin. destruct (decide (l = c)); [by eexists|].
    apply elem_of_cons in Hin as [->|Hin]; [done|]. by apply IH.
Qed.

Lemma ensure_prepared (df df' : DataFrame) :
  _ensure_datetime_index_and_columns df = Ok df' → prepared_frame df'.
Proof.
  unfold _ensure_datetime_index_and_columns.
  destruct (forallb _ essential_cols) eqn:E; [|done].
  intros [= <-] c Hc. rewrite forallb_forall in E.
  apply list_elem_of_In, E in Hc. apply bool_decide_eq_true in Hc.
  by apply find_column_is_Some.
Qed.

Lemma prepared_candle_at (df : DataFrame) (ts : nat → Timestamp) :
  prepared_frame df → ∃ bars, ∀ i, candle_at df ts i = Some (bars i).
Proof.
  intros Hp.
  destruct (Hp "open") as [so Ho]; [set_solver|].
  destruct (Hp "high") as [sh Hh]; [set_solver|].
  destruct (Hp "low") as [sl Hl]; [set_solver|].
  destruct (Hp "close") as [sc Hc]; [set_solver|].
  exists (λ i, mkCandle (ts i) (values so i) (values sh i) (values sl i) (values sc i)
                        (default 0 (iloc df i "volume"))).
  intros i. unfold candle_at, iloc. rewrite Ho, Hh, Hl, Hc. reflexivity.
Qed.

(** The fields of the bar are the cells of the row. *)
Lemma candle_at_cells (df : DataFrame) (ts : nat → Timestamp) (i : nat) (c : Candle) :
  candle_at df ts i = Some c →
  getitem (iloc df i) "open" = Ok (c_open c) ∧
  getitem (iloc df i) "high" = Ok (c_high c) ∧
  getitem (iloc df i) "low" = Ok (c_low c) ∧
  getitem (iloc df i) "close" = Ok (c_close c) ∧
  c_timestamp c = ts i.
Proof.
  unfold candle_at, getitem.
  destruct (iloc df i "open") as [o|]; [|done].
  destruct (iloc df i "high") as [h|]; [|done].
  destruct (iloc df i "low") as [l|]; [|done].
  destruct (iloc df i "close") as [cl|]; [|done].
  simpl. by intros [= <-].
Qed.

Lemma for_each_append {A : Type} (body : list A → nat → result (list A))
    (emit : nat → list A) (idxs : list nat) :
  (∀ i acc, i ∈ idxs → body acc i = Ok (acc ++ emit i)) →
  ∀ acc, for_each body acc idxs = Ok (acc ++ flat_map emit idxs).
Proof.
  induction idxs as [|i idxs IH]; intros Hbody acc; simpl.
  - by rewrite app_nil_r.
  - rewrite Hbody by left. simpl. rewrite IH.
    + by rewrite app_assoc.
    + intros j acc' Hj. apply Hbody. by right.
Qed.

Lemma order_blocks_body_pair (df : DataFrame) (ts : nat → Timestamp) (sf : Q)
    (i : nat) (prev curr : Candle) (acc : list OrderBlock) :
  candle_at df ts (i - 1) = Some prev → candle_at df ts i = Some curr →
  order_blocks_body df ts sf acc i =
  Ok (acc ++ pair_blocks prev curr (iloc df (i - 1) "volume") sf).
Proof.
  intros Hprev Hcurr.
  apply candle_at_cells in Hprev as (Hpo & Hph & Hpl & Hpc & Hpt).
  apply candle_at_cells in Hcurr as (Hco & Hch & Hcl & Hcc & Hct).
  unfold order_blocks_body, pair_blocks, bullish_ob_test, bearish_ob_test,
    block_over, is_bearish, is_bullish, body_size, _get_timestamp_from_index.
  rewrite Hpc, Hpo, Hcc, Hco, Hpt. simpl.
  rewrite (Qabs_Qminus (c_open prev) (c_close prev)),
          (Qabs_Qminus (c_open curr) (c_close curr)).
  destruct (Qlt_bool (c_close prev) (c_open prev)) eqn:E1,
           (Qlt_bool (c_open curr) (c_close curr)) eqn:E2; simpl;
    rewrite ?Hph, ?Hpl, ?Hcl; simpl.
  - assert (Qlt_bool (c_open prev) (c_close prev) = false) as ->.
    { apply Qlt_bool_false. apply Qlt_bool_iff in E1. lra. }
    simpl.
    destruct (Qlt_bool (c_high prev) (c_close curr) && _) eqn:E3; simpl;
      rewrite ?Hph, ?Hpl; simpl; by rewrite ?app_nil_r, <- ?app_assoc.
  - assert (Qlt_bool (c_open prev) (c_close prev) = false) as ->.
    { apply Qlt_bool_false. apply Qlt_bool_iff in E1. lra. }
    simpl. by rewrite app_nil_r.
  - assert (Qlt_bool (c_close curr) (c_open curr) = false) as ->.
    { apply Qlt_bool_false. apply Qlt_bool_iff in E2. lra. }
    rewrite andb_false_r. simpl. by rewrite app_nil_r.
  - destruct (Qlt_bool (c_open prev) (c_close prev)) eqn:E3,
             (Qlt_bool (c_close curr) (c_open curr)) eqn:E4; simpl;
      rewrite ?Hph, ?Hpl, ?Hcl; simpl; try by rewrite app_nil_r.
    destruct (Qlt_bool (c_low curr) (c_low prev) && _) eqn:E5; simpl;
      rewrite ?Hph, ?Hpl; simpl; by rewrite ?app_nil_r.
Qed.

Lemma bullish_ob_test_iff (prev curr : Candle) (sf : Q) :
  bullish_ob_test prev curr sf = true ↔ bullish_ob_condition prev curr sf.
Proof.
  unfold bullish_ob_test, bullish_ob_condition, is_bearish, is_bullish.
  rewrite !andb_true_iff, !Qlt_bool_iff. tauto.
Qed.

Lemma bearish_ob_test_iff (prev curr : Candle) (sf : Q) :
  bearish_ob_test prev curr sf = true ↔ bearish_ob_condition prev curr sf.
Proof.
  unfold bearish_ob_test, bearish_ob_condition, is_bearish, is_bullish.
  rewrite !andb_true_iff, !Qlt_bool_iff. tauto.
Qed.



Lemma ensure_index_len (df : DataFrame) : len (ensure_index df) = len df.
Proof.
  unfold ensure_index. destruct (index df) as [ts|raw parsed]; [done|].
  destruct (convert_time_column df time_cols) as [df'|] eqn:E.
  - revert E. generalize time_cols. intros names.
    induction names as [|c names IH]; simpl; [done|].
    destruct (in_columns c df); [|done].
    destruct (column df c ≫= to_datetime); [|done].
    by intros [= <-].
  - by destruct parsed.
Qed.

Lemma ensure_len (df df' : DataFrame) :
  _ensure_datetime_index_and_columns df = Ok df' → len df' = len df.
Proof.
  unfold _ensure_datetime_index_and_columns.
  destruct (forallb _ essential_cols); [|done].
  intros [= <-]. simpl. apply ensure_index_len.
Qed.

(** The preparation step raises nothing but a [ValueError]. *)
Lemma ensure_raises_ValueError (df : DataFrame) (e : exn) :
  _ensure_datetime_index_and_columns df = Raise e → ∃ msg, e = ValueError msg.
Proof.
  unfold _ensure_datetime_index_and_columns.
  destruct (forallb _ essential_cols); [done|].
  intros [= <-]. by eexists.
Qed.

Lemma fair_value_gaps_body_triple (df : DataFrame) (ts : nat → Timestamp)
    (i : nat) (c0 c2 : Candle) (acc : list FairValueGap) :
  candle_at df ts i = Some c0 → candle_at df ts (i + 2) = Some c2 →
  fair_value_gaps_body df ts acc i = Ok (acc ++ triple_gaps c0 c2).
Proof.
  intros H0 H2.
  apply candle_at_cells in H0 as (_ & H0h & H0l & _ & H0t).
  apply candle_at_cells in H2 as (_ & H2h & H2l & _ & H2t).
  unfold fair_value_gaps_body, triple_gaps, bullish_gap, bearish_gap,
    _get_timestamp_from_index.
  rewrite H0l, H2h, H0t, H2t. simpl.
  destruct (Qlt_bool (c_high c2) (c_low c0)); [done|].
  rewrite H0h, H2l. simpl.
  destruct (Qlt_bool (c_high c0) (c_low c2)); [done|].
  by rewrite app_nil_r.
Qed.



(** The three-bar example of the specification: one bullish gap 108..110. *)
Example gap_example_gaps :
  identify_fair_value_gaps gap_example
  = Ok [mkFairValueGap 0%Z 2%Z 110 108 true None None].
Proof. by vm_compute. Qed.

(** ** Strategies *)




(** ** Engine: the run *)

(** C8: when the strategy returns a signal sequence whose length differs
    from the number of bars, [run] raises the [ValueError] at once: the
    engine state is left as it was, no bar is processed and the signals are
    neither truncated nor padded. *)
Theorem signal_count_mismatch_raises {S : Type} `{BaseStrategy S}
    (self : Backtester S) (st : BacktesterState) (signals : Signals) :
  generate_signals (strategy self) (ohlcv_data self) = Ok signals →
  length signals ≠ len (ohlcv_data self) →
  run self st
  = (Raise (ValueError "Number of signals must match number of data points."), st).
Proof.
  intros Hsig Hlen. unfold run, lift, mbind, M_bind. rewrite Hsig.
  destruct (Nat.eqb_spec (length signals) (len (ohlcv_data self))); done.
Qed.

Lemma default_engine_constructed (df : DataFrame) (signals : Signals)
    (initial_capital : Q) (execution_price_type : string) :
  isinstance_DatetimeIndex (index df) = true →
  forallb (λ col, in_columns col df) required_cols = true →
  lower execution_price_type = execution_price_type →
  Backtester_init df (mkTestStrategy signals) initial_capital 2 1 1 execution_price_type
  = Ok (default_engine df signals initial_capital execution_price_type,
        fresh_state initial_capital).
Proof.
  intros Hix Hcols Hlow. unfold Backtester_init. rewrite Hix, Hcols. simpl.
  assert (in_columns "open" df = true) as ->.
  { rewrite forallb_forall in Hcols. apply Hcols. by left. }
  rewrite andb_false_r. unfold default_engine, fresh_state. by rewrite Hlow.
Qed.

Lemma signal_count_mismatch_raises_witness :
  run mismatch_engine (fresh_state 100000)
  = (Raise (ValueError "Number of signals must match number of data points."),
     fresh_state 100000).
Proof.
  apply (signal_count_mismatch_raises mismatch_engine _ ["hold"]);
    [reflexivity | simpl; lia].
Defined.

(** ** Engine: one bar *)

Section EngineFacts.
Context {S : Type} `{BaseStrategy S}.
Implicit Types (self : Backtester S) (st : BacktesterState).

Lemma account_set_row i f st : account (set_row i f st) = account st.
Proof. done. Qed.

Lemma account_snapshot i c st : account (snapshot i c st) = account st.
Proof. unfold snapshot. by destruct (0 <? i)%nat. Qed.

Lemma account_record_row i c pnl st : account (record_row i c pnl st) = account st.
Proof. done. Qed.

(** The loop body, case by case. *)
Lemma process_bar_unfold self i ts st :
  process_bar self i ts st =
  match getitem (iloc (ohlcv_data self) i) "close" with
  | Raise e => (Raise e, st)
  | Ok c =>
      match _get_execution_price self i (signal (positions_df st i)) with
      | Raise e => (Raise e, snapshot i c st)
      | Ok None => (Ok (), snapshot i c st)
      | Ok (Some px) =>
          (Ok (),
           let '(pnl, st') :=
             handle_signal self ts (signal (positions_df st i)) px c (snapshot i c st) in
           record_row i c pnl st')
      end
  end.
Proof.
  unfold process_bar, mbind, M_bind, gets, lift, modify, mret, M_ret.
  destruct (getitem _ "close") as [c|e]; [|done].
  by destruct (_get_execution_price _ _ _) as [[px|]|e].
Qed.

(** A bar either leaves the account alone or applies [handle_signal]. *)
Lemma process_bar_account self i ts st :
  account (process_bar self i ts st).2 = account st ∨
  ∃ c px, account (process_bar self i ts st).2
          = account (handle_signal self ts (signal (positions_df st i)) px c
                                   (snapshot i c st)).2.
Proof.
  rewrite process_bar_unfold.
  destruct (getitem _ "close") as [c|e]; [|by left].
  destruct (_get_execution_price _ _ _) as [[px|]|e];
    [|left; apply account_snapshot..].
  right. exists c, px. simpl.
  by destruct (handle_signal _ _ _ _ _ _) as [pnl st'].
Qed.

Lemma next_open_last_bar self i sig :
  execution_price_type self = "next_open" →
  (i + 1 = len (ohlcv_data self))%nat →
  _get_execution_price self i sig = Ok None.
Proof.
  intros Hept Hlast. unfold _get_execution_price.
  rewrite bool_decide_true by done.
  destruct (Nat.ltb_spec (i + 1) (len (ohlcv_data self))); [lia | done].
Qed.
End EngineFacts.

(** C6: with [next_open] execution, the final bar of the series executes no
    trade whatever its signal: the trade log gains no entry and position
    quantity, average entry price and cash are as before the bar; the bar
    only takes its mark-to-market snapshot. *)
Theorem next_open_last_bar_no_trade {S : Type} `{BaseStrategy S}
    (self : Backtester S) (i : nat) (timestamp : Z) (st : BacktesterState) :
  execution_price_type self = "next_open" →
  (i + 1 = len (ohlcv_data self))%nat →
  let st' := (process_bar self i timestamp st).2 in
  trade_log st' = trade_log st ∧
  current_position_qty st' = current_position_qty st ∧
  avg_entry_price st' = avg_entry_price st ∧
  current_cash st' = current_cash st ∧
  (∀ c, getitem (iloc (ohlcv_data self) i) "close" = Ok c →
        process_bar self i timestamp st = (Ok (), snapshot i c st)).
Proof.
  intros Hept Hlast st'. subst st'.
  rewrite process_bar_unfold, (next_open_last_bar self i _ Hept Hlast).
  destruct (getitem _ "close") as [c|e].
  - pose proof (account_snapshot i c st) as Hacc.
    unfold account in Hacc. simpl. simplify_eq.
    repeat split; try done. by intros c' [= <-].
  - repeat split; done.
Qed.

Lemma next_open_last_bar_no_trade_witness :
  signal (positions_df last_bar_start 1) = Some "buy" ∧
  trade_log (process_bar last_bar_engine 1 1%Z last_bar_start).2 = [] ∧
  current_position_qty (process_bar last_bar_engine 1 1%Z last_bar_start).2 = 0.
Proof.
  split; [reflexivity|].
  destruct (next_open_last_bar_no_trade last_bar_engine 1 1%Z last_bar_start
              eq_refl eq_refl) as (Hlog & Hqty & _).
  split; [exact Hlog | exact Hqty].
Defined.

(** ** Engine: trade legs *)

Section Legs.
Context {S : Type} `{BaseStrategy S}.
Implicit Types (self : Backtester S) (st : BacktesterState).

Lemma account_fields st1 st2 :
  account st1 = account st2 →
  trade_log st1 = trade_log st2 ∧ current_cash st1 = current_cash st2 ∧
  current_position_qty st1 = current_position_qty st2 ∧
  avg_entry_price st1 = avg_entry_price st2.
Proof. unfold account. by intros [= -> -> -> ->]. Qed.

(** Without the funds an opening buy changes nothing. *)
Lemma open_long_insufficient self ts px c st :
  current_cash st
    < default_position_size self * px
      + _calculate_commission self (default_position_size self * px) →
  open_long self ts px c st = st.
Proof.
  intros Hcash. unfold open_long.
  destruct (Qeq_bool (current_position_qty st) 0); [|done].
  destruct (Qle_bool _ (current_cash st)) eqn:E; [|done].
  apply Qle_bool_iff in E. lra.
Qed.

Lemma cover_short_position self ts px st :
  current_position_qty (cover_short self ts px st).2 = 0 ∧
    current_position_qty st < 0 ∨
  (cover_short self ts px st).2 = st ∧ 0 <= current_position_qty st.
Proof.
  unfold cover_short.
  destruct (Qlt_bool (current_position_qty st) 0) eqn:E; simpl.
  - left. by apply Qlt_bool_iff in E.
  - right. by apply Qlt_bool_false in E.
Qed.

Lemma close_long_position self ts px st :
  current_position_qty (close_long self ts px st).2 = 0 ∧
    0 < current_position_qty st ∧
    trade_log (close_long self ts px st).2 ≠ trade_log st ∨
  (close_long self ts px st).2 = st ∧ current_position_qty st <= 0.
Proof.
  unfold close_long.
  destruct (Qlt_bool 0 (current_position_qty st)) eqn:E; simpl.
  - left. apply Qlt_bool_iff in E. repeat split; [done|].
    intros Heq. apply (f_equal length) in Heq.
    rewrite length_app in Heq. simpl in Heq. lia.
  - right. by apply Qlt_bool_false in E.
Qed.

Lemma open_long_position self ts px c st :
  open_long self ts px c st = st ∨
  current_position_qty st == 0 ∧
  current_position_qty (open_long self ts px c st) == default_position_size self.
Proof.
  unfold open_long.
  destruct (Qeq_bool (current_position_qty st) 0) eqn:E; [|by left].
  destruct (Qle_bool _ (current_cash st)); [|by left].
  right. apply Qeq_bool_iff in E. simpl. split; [done|]. rewrite E. lra.
Qed.

Lemma open_short_position self ts px c st :
  open_short self ts px c st = st ∧ ¬ current_position_qty st == 0 ∨
  current_position_qty st == 0 ∧
  current_position_qty (open_short self ts px c st) == - default_position_size self.
Proof.
  unfold open_short.
  destruct (Qeq_bool (current_position_qty st) 0) eqn:E.
  - right. apply Qeq_bool_iff in E. simpl. split; [done|]. rewrite E. lra.
  - left. by apply Qeq_bool_false in E.
Qed.

Lemma open_short_log self ts px c st :
  length (trade_log st) ≤ length (trade_log (open_short self ts px c st)).
Proof.
  unfold open_short. destruct (Qeq_bool (current_position_qty st) 0); [|done].
  simpl. rewrite length_app. lia.
Qed.

Lemma handle_signal_buy self ts px c st :
  handle_signal self ts (Some "buy") px c st
  = ((cover_short self ts px st).1,
     open_long self ts px c (cover_short self ts px st).2).
Proof.
  unfold handle_signal. simpl. by destruct (cover_short self ts px st).
Qed.

Lemma handle_signal_sell self ts px c st :
  handle_signal self ts (Some "sell") px c st
  = ((close_long self ts px st).1,
     open_short self ts px c (close_long self ts px st).2).
Proof.
  unfold handle_signal. simpl. by destruct (close_long self ts px st).
Qed.

Lemma handle_signal_other self ts sig px c st :
  sig ≠ Some "buy" → sig ≠ Some "sell" →
  handle_signal self ts sig px c st = (0, st).
Proof.
  intros Hb Hs. unfold handle_signal.
  by rewrite !bool_decide_false by done.
Qed.

(** Every signal keeps the position at zero or one unit either way. *)
Lemma handle_signal_position_ok self ts sig px c st :
  position_ok self st → position_ok self (handle_signal self ts sig px c st).2.
Proof.
  intros Hok.
  destruct (decide (sig = Some "buy")) as [->|Hb];
    [|destruct (decide (sig = Some "sell")) as [->|Hs]].
  - rewrite handle_signal_buy. simpl.
    destruct (cover_short_position self ts px st) as [[Hq _]|[Hst _]].
    + destruct (open_long_position self ts px c (cover_short self ts px st).2)
        as [->|[_ Hd]].
      * right. left. by rewrite Hq.
      * by right; right.
    + rewrite Hst.
      destruct (open_long_position self ts px c st) as [->|[_ Hd]]; [done|].
      by right; right.
  - rewrite handle_signal_sell. simpl.
    destruct (close_long_position self ts px st) as [(Hq & _ & _)|[Hst _]].
    + destruct (open_short_position self ts px c (close_long self ts px st).2)
        as [[-> _]|[_ Hd]].
      * right. left. by rewrite Hq.
      * by left.
    + rewrite Hst.
      destruct (open_short_position self ts px c st) as [[-> _]|[_ Hd]]; [done|].
      by left.
  - by rewrite handle_signal_other.
Qed.

Lemma process_bar_position_ok self i ts st :
  position_ok self st → position_ok self (process_bar self i ts st).2.
Proof.
  intros Hok. unfold position_ok.
  destruct (process_bar_account self i ts st) as [Hacc|(c & px & Hacc)];
    apply account_fields in Hacc as (_ & _ & -> & _); [done|].
  apply (handle_signal_position_ok self ts _ px c (snapshot i c st)).
  destruct (account_fields _ _ (account_snapshot i c st)) as (_ & _ & Hq & _).
  unfold position_ok. by rewrite Hq.
Qed.

Lemma run_loop_position_ok self idxs :
  ∀ st, position_ok self st → position_ok self (run_loop self idxs st).2.
Proof.
  induction idxs as [|i idxs IH]; intros st Hok; [done|].
  unfold run_loop. simpl. unfold mbind, M_bind at 1.
  pose proof (process_bar_position_ok self i
                (index_at (index (ohlcv_data self)) i) st Hok) as Hstep.
  destruct (process_bar self i _ st) as [[[]|e] st1]; simpl in *; [|done].
  by apply IH.
Qed.
End Legs.

(** C5: a buy signal that finds the engine flat (after covering a short, if
    there was one) and the cash below trade value plus commission opens
    nothing: the bar completes without an exception, and trade log, cash,
    position quantity and average entry price are those left by the covering
    leg (those before the bar when there was no short). *)
Theorem insufficient_funds_no_op {S : Type} `{BaseStrategy S}
    (self : Backtester S) (i : nat) (timestamp : Z) (st : BacktesterState)
    (c px : Q) :
  signal (positions_df st i) = Some "buy" →
  getitem (iloc (ohlcv_data self) i) "close" = Ok c →
  _get_execution_price self i (Some "buy") = Ok (Some px) →
  let covered := (cover_short self timestamp px (snapshot i c st)).2 in
  current_position_qty covered == 0 →
  current_cash covered
    < default_position_size self * px
      + _calculate_commission self (default_position_size self * px) →
  open_long self timestamp px c covered = covered ∧
  ∃ st', process_bar self i timestamp st = (Ok (), st') ∧
         trade_log st' = trade_log covered ∧
         current_cash st' = current_cash covered ∧
         current_position_qty st' = current_position_qty covered ∧
         avg_entry_price st' = avg_entry_price covered ∧
         (0 <= current_position_qty st → account st' = account st).
Proof.
  intros Hsig Hclose Hpx covered Hflat Hcash.
  pose proof (open_long_insufficient self timestamp px c covered Hcash) as Hopen.
  split; [done|].
  rewrite process_bar_unfold, Hclose, Hsig, Hpx, handle_signal_buy.
  fold covered. rewrite Hopen. eexists. split; [done|]. simpl.
  repeat split; try done.
  intros Hnonneg. subst covered. unfold cover_short.
  assert (Qlt_bool (current_position_qty (snapshot i c st)) 0 = false) as ->.
  { apply Qlt_bool_false.
    destruct (account_fields _ _ (account_snapshot i c st)) as (_ & _ & -> & _).
    done. }
  simpl. apply account_snapshot.
Qed.

(** C10: from a flat position the quantity after any bars is one of
    [-default_position_size], [0], [+default_position_size]; a buy while
    long and a sell while short leave it unchanged; a sell that executes a
    trade leaves it at [-default_position_size]. *)
Theorem position_size_invariant {S : Type} `{BaseStrategy S} (self : Backtester S) :
  (∀ idxs st, current_position_qty st == 0 →
              position_ok self (run_loop self idxs st).2) ∧
  (∀ st m st', current_position_qty st == 0 → run self st = (Ok m, st') →
               position_ok self st') ∧
  (∀ i ts st, signal (positions_df st i) = Some "buy" →
              0 < current_position_qty st →
              current_position_qty (process_bar self i ts st).2
              = current_position_qty st) ∧
  (∀ i ts st, signal (positions_df st i) = Some "sell" →
              current_position_qty st < 0 →
              current_position_qty (process_bar self i ts st).2
              = current_position_qty st) ∧
  (∀ i ts st, signal (positions_df st i) = Some "sell" →
              trade_log (process_bar self i ts st).2 ≠ trade_log st →
              current_position_qty (process_bar self i ts st).2
              == - default_position_size self).
Proof.
  split; [|split; [|split; [|split]]].
  - intros idxs st Hflat. apply run_loop_position_ok. by right; left.
  - intros st m st' Hflat. unfold run, mbind, M_bind, lift, raise, modify, gets.
    destruct (generate_signals _ _) as [signals|e]; [|done].
    destruct (negb _); [done|].
    destruct (first_close _) as [last_price|e]; [|done].
    pose proof (run_loop_position_ok self (seq 0 (len (ohlcv_data self)))
                  (init_rows self signals st)) as Hloop.
    destruct (run_loop self _ (init_rows self signals st)) as [[[]|e] st1];
      [|done].
    intros [= _ <-]. apply Hloop. by right; left.
  - intros i ts st Hsig Hlong.
    destruct (process_bar_account self i ts st) as [Hacc|(c & px & Hacc)];
      apply account_fields in Hacc as (_ & _ & -> & _); [done|].
    destruct (account_fields _ _ (account_snapshot i c st)) as (_ & _ & Hq & _).
    rewrite Hsig, handle_signal_buy. simpl.
    destruct (cover_short_position self ts px (snapshot i c st)) as [[_ Hneg]|[-> _]].
    { rewrite Hq in Hneg. lra. }
    destruct (open_long_position self ts px c (snapshot i c st)) as [->|[Hz _]];
      [done|].
    rewrite Hq in Hz. lra.
  - intros i ts st Hsig Hshort.
    destruct (process_bar_account self i ts st) as [Hacc|(c & px & Hacc)];
      apply account_fields in Hacc as (_ & _ & -> & _); [done|].
    destruct (account_fields _ _ (account_snapshot i c st)) as (_ & _ & Hq & _).
    rewrite Hsig, handle_signal_sell. simpl.
    destruct (close_long_position self ts px (snapshot i c st))
      as [(_ & Hpos & _)|[-> _]].
    { rewrite Hq in Hpos. lra. }
    destruct (open_short_position self ts px c (snapshot i c st)) as [[-> _]|[Hz _]];
      [done|].
    rewrite Hq in Hz. lra.
  - intros i ts st Hsig Hlog.
    destruct (process_bar_account self i ts st) as [Hacc|(c & px & Hacc)];
      apply account_fields in Hacc as (Hl & _ & Hq' & _); [done|].
    destruct (account_fields _ _ (account_snapshot i c st)) as (Hl0 & _ & Hq & _).
    rewrite Hq'. rewrite Hl in Hlog. clear Hl Hq'.
    rewrite Hsig, handle_signal_sell in *. cbn [fst snd] in *.
    destruct (close_long_position self ts px (snapshot i c st))
      as [(Hz & _ & _)|[Hst _]].
    + destruct (open_short_position self ts px c (close_long self ts px (snapshot i c st)).2)
        as [[_ Hnz]|[_ Hd]]; [|done].
      by rewrite Hz in Hnz.
    + rewrite Hst in *.
      destruct (open_short_position self ts px c (snapshot i c st))
        as [[Hsame _]|[_ Hd]]; [|done].
      rewrite Hsame in Hlog. by rewrite Hl0 in Hlog.
Qed.

Lemma insufficient_funds_no_op_witness :
  ∃ st', process_bar cash_poor_engine 0 0%Z cash_poor_start = (Ok (), st') ∧
         account st' = account cash_poor_start.
Proof.
  destruct (insufficient_funds_no_op cash_poor_engine 0 0%Z cash_poor_start
              100 (100 * (1 + 1 / 10000)))
    as (_ & st' & Hrun & _ & _ & _ & _ & Hacc).
  - reflexivity.
  - reflexivity.
  - reflexivity.
  - vm_compute. reflexivity.
  - vm_compute. reflexivity.
  - exists st'. split; [exact Hrun|]. apply Hacc. vm_compute. discriminate.
Defined.

Lemma position_size_invariant_witness :
  position_ok round_trip_engine
    (run_loop round_trip_engine [0; 1]%nat round_trip_start).2 ∧
  current_position_qty (run_loop round_trip_engine [0; 1]%nat round_trip_start).2
  == - (1).
Proof.
  destruct (position_size_invariant round_trip_engine) as (Hloop & _).
  split.
  - apply (Hloop [0; 1]%nat round_trip_start). vm_compute. reflexivity.
  - vm_compute. reflexivity.
Defined.

(** ** Metrics: drawdown *)

#[local] Arguments cell_max : simpl never.
#[local] Arguments cell_div : simpl never.
#[local] Arguments cell_sub : simpl never.

Lemma cell_max_finite (p v : Q) :
  ∃ m, cell_max (Finite p) (Finite v) = Finite m ∧ p <= m ∧ v <= m ∧
       (p < v → m = v).
Proof.
  unfold cell_max, cell_leb. destruct (Qle_bool p v) eqn:E.
  - apply Qle_bool_iff in E. exists v. split; [done|]. repeat split; lra.
  - apply Qle_bool_false in E. exists p. split; [done|].
    repeat split; lra.
Qed.

Lemma drawdown_cell_nonpositive (v p : Q) :
  0 < p → v <= p →
  nonpositive (cell_div (cell_sub (Finite v) (Finite p)) (Finite p)).
Proof.
  intros Hp Hv. unfold cell_div, cell_sub, cell_neg, cell_add.
  assert (Qeq_bool p 0 = false) as -> by (apply Qeq_bool_false; lra).
  eexists. split; [done|].
  apply Qle_shift_div_r; [done | lra].
Qed.

Lemma drawdown_cell_at_peak (v : Q) :
  zero_or_nan (cell_div (cell_sub (Finite v) (Finite v)) (Finite v)) ∧
  (¬ v == 0 → ∃ q, cell_div (cell_sub (Finite v) (Finite v)) (Finite v) = Finite q
                   ∧ q == 0).
Proof.
  unfold cell_div, cell_sub, cell_neg, cell_add.
  destruct (Qeq_bool v 0) eqn:E.
  - apply Qeq_bool_iff in E. split; [|done].
    left. unfold signed_inf.
    assert (Qeq_bool (v + - v) 0 = true) as -> by (apply Qeq_bool_iff; lra).
    done.
  - apply Qeq_bool_false in E.
    assert ((v + - v) / v == 0) as Hz by (field; done).
    split; [right|intros _]; by eexists.
Qed.

Lemma drawdown_from_nonpositive (qs : list Q) :
  ∀ p, 0 < p →
    Forall nonpositive
      (zip_with (λ v peak, cell_div (cell_sub v peak) peak)
                (Finite <$> qs) (expanding_max_from (Finite p) (Finite <$> qs))).
Proof.
  induction qs as [|v qs IH]; intros p Hp; simpl; [constructor|].
  destruct (cell_max_finite p v) as (m & -> & Hpm & Hvm & _).
  constructor.
  - apply drawdown_cell_nonpositive; lra.
  - apply IH. lra.
Qed.

Lemma drawdown_from_increasing (qs : list Q) :
  ∀ p, strictly_increasing (p :: qs) →
    Forall zero_or_nan
      (zip_with (λ v peak, cell_div (cell_sub v peak) peak)
                (Finite <$> qs) (expanding_max_from (Finite p) (Finite <$> qs))).
Proof.
  induction qs as [|v qs IH]; intros p Hinc; simpl; [constructor|].
  destruct Hinc as [Hpv Hinc].
  destruct (cell_max_finite p v) as (m & -> & _ & _ & Hm).
  rewrite (Hm Hpv). constructor.
  - apply drawdown_cell_at_peak.
  - by apply IH.
Qed.

Lemma cell_min_nonpositive (a d : cell) :
  nonpositive a → nonpositive d → nonpositive (cell_min a d).
Proof.
  intros (x & -> & Hx) (y & -> & Hy). unfold cell_min, cell_leb.
  destruct (Qle_bool x y); by eexists.
Qed.

Lemma series_min_from_nonpositive (ds : list cell) :
  ∀ a, nonpositive a → Forall nonpositive ds → nonpositive (foldl cell_min a ds).
Proof.
  induction ds as [|d ds IH]; intros a Ha Hds; simpl; [done|].
  inversion Hds; subst. apply IH; [|done]. by apply cell_min_nonpositive.
Qed.

Lemma series_min_from_zero (ds : list cell) :
  ∀ a, (∃ q, a = Finite q ∧ q == 0) → Forall zero_or_nan ds →
       ∃ q, foldl cell_min a ds = Finite q ∧ q == 0.
Proof.
  induction ds as [|d ds IH]; intros a Ha Hds; simpl; [done|].
  inversion Hds as [|d' ds' Hd Hrest]; subst. apply IH; [|done].
  destruct Ha as (x & -> & Hx), Hd as [->|(y & -> & Hy)]; simpl.
  - by eexists.
  - unfold cell_leb. destruct (Qle_bool x y); by eexists.
Qed.

Lemma nonpositive_leb (d : cell) : nonpositive d → cell_leb d (Finite 0) = true.
Proof. intros (q & -> & Hq). by apply Qle_bool_iff. Qed.

Lemma nonpositive_scaled (d : cell) :
  nonpositive d → nonpositive (cell_mul d (Finite 100)).
Proof. intros (q & -> & Hq). eexists. split; [done|]. lra. Qed.

Lemma drawdown_cons (v0 : Q) (qs : list Q) :
  drawdown (Finite <$> v0 :: qs) =
  cell_div (cell_sub (Finite v0) (Finite v0)) (Finite v0)
  :: zip_with (λ v peak, cell_div (cell_sub v peak) peak)
              (Finite <$> qs) (expanding_max_from (Finite v0) (Finite <$> qs)).
Proof. reflexivity. Qed.

(** The drawdown series of a series that starts positive. *)
Lemma drawdown_nonpositive (v0 : Q) (qs : list Q) :
  0 < v0 →
  Forall nonpositive (drawdown (Finite <$> v0 :: qs)) ∧
  nonpositive (max_drawdown (Finite <$> v0 :: qs)).
Proof.
  intros Hv0.
  assert (Forall nonpositive (drawdown (Finite <$> v0 :: qs))) as Hdd.
  { rewrite drawdown_cons. constructor.
    - apply drawdown_cell_nonpositive; lra.
    - by apply drawdown_from_nonpositive. }
  split; [done|].
  unfold max_drawdown, series_min. apply nonpositive_scaled.
  revert Hdd. rewrite drawdown_cons.
  intros Hdd. inversion Hdd as [|d ds Hd Hrest]; subst.
  cbn [foldl]. apply series_min_from_nonpositive; [|done].
  destruct Hd as (q & -> & Hq). by eexists.
Qed.

(** The drawdown of a strictly increasing series that does not start at 0. *)
Lemma drawdown_increasing (v0 : Q) (qs : list Q) :
  ¬ v0 == 0 → strictly_increasing (v0 :: qs) →
  ∃ q, max_drawdown (Finite <$> v0 :: qs) = Finite q ∧ q == 0.
Proof.
  intros Hv0 Hinc.
  unfold max_drawdown, series_min. rewrite drawdown_cons.
  destruct (drawdown_cell_at_peak v0) as [_ Hfirst].
  destruct (Hfirst Hv0) as (d0 & -> & Hd0). cbn [foldl cell_min].
  destruct (series_min_from_zero
              (zip_with (λ v peak, cell_div (cell_sub v peak) peak)
                        (Finite <$> qs)
                        (expanding_max_from (Finite v0) (Finite <$> qs)))
              (Finite d0)) as (m & -> & Hm).
  - by eexists.
  - by apply drawdown_from_increasing.
  - eexists. split; [done|]. simpl. lra.
Qed.

(** ** Engine: the valuation rows *)

Lemma conserved_cash_conservation (row : ValuationRow) (c : Q) :
  conserved row c → cash_conservation row c = true.
Proof.
  intros (k & q & Hk & Hq & Hp). unfold cash_conservation.
  rewrite Hk, Hq, Hp. simpl. by apply Qeq_bool_iff.
Qed.

Section Rows.
Context {S : Type} `{BaseStrategy S}.
Implicit Types (self : Backtester S) (st : BacktesterState).

Lemma set_row_same i f st : positions_df (set_row i f st) i = f (positions_df st i).
Proof. unfold set_row. simpl. apply fn_lookup_insert. Qed.

Lemma set_row_other i j f st :
  i ≠ j → positions_df (set_row i f st) j = positions_df st j.
Proof. intros Hne. unfold set_row. simpl. by apply fn_lookup_insert_ne. Qed.

Lemma handle_signal_rows self ts sig px c st :
  positions_df (handle_signal self ts sig px c st).2 = positions_df st.
Proof.
  unfold handle_signal, cover_short, open_long, close_long, open_short.
  repeat (case_bool_decide || case_match || simpl); simplify_eq/=; done.
Qed.

Lemma snapshot_other i j c st :
  i ≠ j → positions_df (snapshot i c st) j = positions_df st j.
Proof.
  intros Hne. unfold snapshot, mark_to_market, carry_forward.
  destruct (0 <? i)%nat; by rewrite !set_row_other.
Qed.

Lemma record_row_other i j c pnl st :
  i ≠ j → positions_df (record_row i c pnl st) j = positions_df st j.
Proof. intros Hne. unfold record_row. by rewrite set_row_other. Qed.

(** A bar writes its own row only. *)
Lemma process_bar_rows_other self i ts st j :
  i ≠ j → positions_df (process_bar self i ts st).2 j = positions_df st j.
Proof.
  intros Hne. rewrite process_bar_unfold.
  destruct (getitem _ "close") as [c|e]; [|done].
  destruct (_get_execution_price _ _ _) as [[px|]|e]; simpl;
    [|by apply snapshot_other..].
  pose proof (handle_signal_rows self ts (signal (positions_df st i)) px c
                (snapshot i c st)) as Hrows.
  destruct (handle_signal _ _ _ _ _ _) as [pnl st2]. simpl in Hrows.
  rewrite record_row_other, Hrows by done. by apply snapshot_other.
Qed.

(** The snapshot of bar [i]: the row balances when [i > 0]. *)
Lemma snapshot_row i c st :
  rows_finite st →
  is_finite (cash (positions_df (snapshot i c st) i)) ∧
  is_finite (portfolio_value (positions_df (snapshot i c st) i)) ∧
  ((0 < i)%nat → conserved (positions_df (snapshot i c st) i) c).
Proof.
  intros Hfin. unfold snapshot, mark_to_market.
  destruct (Nat.ltb_spec 0 i) as [Hpos|Hzero].
  - unfold carry_forward. rewrite !set_row_same. simpl.
    destruct (Hfin (i - 1)%nat) as [[k Hk] _]. rewrite Hk. simpl.
    repeat split; try by eexists.
    intros _. exists k, (current_position_qty st). by simpl.
  - rewrite set_row_same. simpl.
    destruct (Hfin i) as [[k Hk] _]. rewrite Hk. simpl.
    repeat split; try by eexists. lia.
Qed.

Lemma record_row_conserved i c pnl st :
  conserved (positions_df (record_row i c pnl st) i) c.
Proof.
  unfold record_row. rewrite set_row_same. simpl.
  by exists (current_cash st), (current_position_qty st).
Qed.

Lemma conserved_finite row c :
  conserved row c → is_finite (cash row) ∧ is_finite (portfolio_value row).
Proof. intros (k & q & Hk & _ & Hp). split; by eexists. Qed.

Lemma process_bar_rows_finite self i ts st :
  rows_finite st → rows_finite (process_bar self i ts st).2.
Proof.
  intros Hfin j. destruct (decide (i = j)) as [<-|Hne];
    [|rewrite process_bar_rows_other by done; apply Hfin].
  rewrite process_bar_unfold.
  destruct (getitem _ "close") as [c|e]; [|apply Hfin].
  destruct (snapshot_row i c st Hfin) as (Hk & Hp & _).
  destruct (_get_execution_price _ _ _) as [[px|]|e]; simpl; [|done..].
  destruct (handle_signal _ _ _ _ _ _) as [pnl st2].
  apply (conserved_finite _ c), record_row_conserved.
Qed.

(** A completed bar leaves a row that balances, except a first bar that
    could not execute. *)
Lemma process_bar_conserved self i ts st st' :
  rows_finite st →
  process_bar self i ts st = (Ok (), st') →
  (0 < i)%nat ∨ _get_execution_price self i (signal (positions_df st i)) ≠ Ok None →
  ∃ c, getitem (iloc (ohlcv_data self) i) "close" = Ok c ∧
       conserved (positions_df st' i) c.
Proof.
  intros Hfin. rewrite process_bar_unfold.
  destruct (getitem _ "close") as [c|e]; [|done].
  destruct (snapshot_row i c st Hfin) as (_ & _ & Hsnap).
  destruct (_get_execution_price _ _ _) as [[px|]|e]; [| |done].
  - destruct (handle_signal _ _ _ _ _ _) as [pnl st2].
    intros [= <-] _. exists c. split; [done|]. apply record_row_conserved.
  - intros [= <-] [Hpos|Hne]; [|done]. exists c. split; [done|]. by apply Hsnap.
Qed.

Lemma for_bars_cons (body : nat → M unit) i idxs st :
  for_bars body (i :: idxs) st =
  match body i st with
  | (Ok _, st1) => for_bars body idxs st1
  | (Raise e, st1) => (Raise e, st1)
  end.
Proof. reflexivity. Qed.

Lemma run_loop_rows_finite self idxs :
  ∀ st, rows_finite st → rows_finite (run_loop self idxs st).2.
Proof.
  induction idxs as [|i idxs IH]; intros st Hfin; [done|].
  unfold run_loop. rewrite for_bars_cons.
  pose proof (process_bar_rows_finite self i
                (index_at (index (ohlcv_data self)) i) st Hfin) as Hstep.
  destruct (process_bar self i _ st) as [[[]|e] st1]; simpl in *; [|done].
  by apply IH.
Qed.

Lemma run_loop_rows_other self idxs j :
  j ∉ idxs → ∀ st, positions_df (run_loop self idxs st).2 j = positions_df st j.
Proof.
  induction idxs as [|i idxs IH]; intros Hj st; [done|].
  apply not_elem_of_cons in Hj as [Hne Hj].
  unfold run_loop. rewrite for_bars_cons.
  pose proof (process_bar_rows_other self i
                (index_at (index (ohlcv_data self)) i) st j) as Hstep.
  destruct (process_bar self i _ st) as [[[]|e] st1]; simpl in *;
    [|by apply Hstep].
  fold (run_loop self idxs st1). rewrite IH by done. by apply Hstep.
Qed.

Lemma signal_unchanged_snapshot i j c st :
  signal (positions_df (snapshot i c st) j) = signal (positions_df st j).
Proof.
  destruct (decide (i = j)) as [<-|Hne]; [|by rewrite snapshot_other].
  unfold snapshot, mark_to_market, carry_forward.
  destruct (0 <? i)%nat; by rewrite !set_row_same.
Qed.

Lemma process_bar_signal self i ts st j :
  signal (positions_df (process_bar self i ts st).2 j) = signal (positions_df st j).
Proof.
  destruct (decide (i = j)) as [<-|Hne];
    [|by rewrite process_bar_rows_other].
  rewrite process_bar_unfold.
  destruct (getitem _ "close") as [c|e]; [|done].
  destruct (_get_execution_price _ _ _) as [[px|]|e]; simpl;
    [|by apply signal_unchanged_snapshot..].
  pose proof (handle_signal_rows self ts (signal (positions_df st i)) px c
                (snapshot i c st)) as Hrows.
  destruct (handle_signal _ _ _ _ _ _) as [pnl st2]. simpl in Hrows.
  unfold record_row. rewrite set_row_same. simpl. rewrite Hrows.
  apply signal_unchanged_snapshot.
Qed.

(** After the loop over the bars [a, a+n) every such row balances, except
    a first bar that could not execute. *)
Lemma run_loop_conserved self n :
  ∀ a st st',
    rows_finite st →
    run_loop self (seq a n) st = (Ok (), st') →
    ∀ i, (a ≤ i < a + n)%nat →
         (0 < i)%nat ∨
           _get_execution_price self i (signal (positions_df st i)) ≠ Ok None →
         ∃ c, getitem (iloc (ohlcv_data self) i) "close" = Ok c ∧
              conserved (positions_df st' i) c.
Proof.
  induction n as [|n IH]; intros a st st' Hfin Hrun i Hi Hgood; [lia|].
  revert Hrun. unfold run_loop. simpl seq. rewrite for_bars_cons.
  set (ts := index_at (index (ohlcv_data self)) a).
  pose proof (process_bar_rows_finite self a ts st Hfin) as Hfin1.
  pose proof (process_bar_conserved self a ts st) as Hcons.
  pose proof (process_bar_signal self a ts st) as Hsig.
  destruct (process_bar self a ts st) as [[[]|e] st1]; [|done].
  simpl in Hfin1, Hsig. fold (run_loop self (seq (Datatypes.S a) n) st1).
  intros Hrun. destruct (decide (i = a)) as [->|Hne].
  - destruct (Hcons st1 Hfin eq_refl Hgood) as (c & Hc & Hrow).
    exists c. split; [done|].
    replace st' with (run_loop self (seq (Datatypes.S a) n) st1).2
      by (by rewrite Hrun).
    rewrite run_loop_rows_other; [done|].
    rewrite elem_of_seq. lia.
  - apply (IH (Datatypes.S a) st1 st' Hfin1 Hrun); [lia|].
    by rewrite Hsig.
Qed.
End Rows.

(** ** Engine: completed runs *)

Section Runs.
Context {S : Type} `{BaseStrategy S}.
Implicit Types (self : Backtester S) (st : BacktesterState).

Lemma init_rows_finite self signals st : rows_finite (init_rows self signals st).
Proof. intros j. split; by eexists. Qed.

(** What a run that returns has gone through. *)
Lemma run_Ok self st m st' :
  run self st = (Ok m, st') →
  ∃ signals,
    generate_signals (strategy self) (ohlcv_data self) = Ok signals ∧
    length signals = len (ohlcv_data self) ∧
    (0 < len (ohlcv_data self))%nat ∧
    run_loop self (seq 0 (len (ohlcv_data self))) (init_rows self signals st)
      = (Ok (), st') ∧
    m = calculate_performance_metrics self st'.
Proof.
  unfold run, mbind, M_bind, lift, raise, modify, gets.
  destruct (generate_signals _ _) as [signals|e]; [|done].
  destruct (Nat.eqb_spec (length signals) (len (ohlcv_data self))) as [Hlen|];
    [|done].
  simpl. unfold first_close.
  destruct (column (ohlcv_data self) "close") as [s|]; [|done].
  destruct (Nat.eqb_spec (len (ohlcv_data self)) 0) as [|Hpos]; [done|].
  destruct (run_loop self _ (init_rows self signals st)) as [[[]|e] st1] eqn:E;
    [|done].
  intros [= <- <-]. exists signals. repeat split; try done. lia.
Qed.

Lemma execution_price_available self i sig :
  execution_price_type self ≠ "next_open" ∨ (i + 1 < len (ohlcv_data self))%nat →
  _get_execution_price self i sig ≠ Ok None.
Proof.
  intros Hgood. unfold _get_execution_price.
  case_bool_decide as Hept.
  - destruct Hgood as [|Hnext]; [done|].
    destruct (Nat.ltb_spec (i + 1) (len (ohlcv_data self))); [|lia].
    by destruct (getitem _ "open").
  - by destruct (getitem _ "close").
Qed.

(** The rows of a completed run balance, bar the single row of a one-bar
    run with [next_open] execution. *)
Lemma cash_conservation_rows self st m st' :
  run self st = (Ok m, st') →
  ∀ i, (i < len (ohlcv_data self))%nat →
       (0 < i)%nat ∨ execution_price_type self ≠ "next_open"
         ∨ (1 < len (ohlcv_data self))%nat →
       ∃ c, getitem (iloc (ohlcv_data self) i) "close" = Ok c ∧
            cash_conservation (positions_df st' i) c = true.
Proof.
  intros Hrun i Hi Hgood.
  apply run_Ok in Hrun as (signals & _ & _ & _ & Hloop & _).
  destruct (run_loop_conserved self _ 0%nat _ st' (init_rows_finite self signals st)
              Hloop i) as (c & Hc & Hrow).
  - lia.
  - destruct (decide (i = 0%nat)) as [->|]; [|left; lia].
    right. apply execution_price_available.
    destruct Hgood as [|[|]]; [lia | by left | right; lia].
  - exists c. split; [done|]. by apply conserved_cash_conservation.
Qed.

Lemma finite_cells (f : nat → cell) (n : nat) :
  ∀ a, (∀ j, is_finite (f j)) →
       ∃ qs, f <$> seq a n = Finite <$> qs ∧ length qs = n.
Proof.
  induction n as [|n IH]; intros a Hf; [by exists []|].
  destruct (Hf a) as [q Hq]. destruct (IH (Datatypes.S a) Hf) as (qs & Hqs & Hlen).
  exists (q :: qs). simpl. rewrite Hq. split; [|by rewrite Hlen].
  f_equal. exact Hqs.
Qed.

Lemma max_drawdown_pct_eq self st :
  max_drawdown_pct (calculate_performance_metrics self st)
  = max_drawdown (column_cells portfolio_value (len (ohlcv_data self)) st).
Proof.
  unfold calculate_performance_metrics.
  by destruct (foldl count_trade _ _) as [[n w] l].
Qed.

(** The portfolio values of a completed run are numbers, one per bar. *)
Lemma run_portfolio_values self st m st' :
  run self st = (Ok m, st') →
  ∃ v0 qs,
    column_cells portfolio_value (len (ohlcv_data self)) st' = Finite <$> v0 :: qs ∧
    portfolio_value (positions_df st' 0) = Finite v0 ∧
    max_drawdown_pct m = max_drawdown (Finite <$> v0 :: qs).
Proof.
  intros Hrun. apply run_Ok in Hrun as (signals & _ & _ & Hpos & Hloop & ->).
  pose proof (run_loop_rows_finite self (seq 0 (len (ohlcv_data self)))
                (init_rows self signals st) (init_rows_finite self signals st))
    as Hfin.
  rewrite Hloop in Hfin. simpl in Hfin.
  destruct (finite_cells (λ i, portfolio_value (positions_df st' i))
              (len (ohlcv_data self)) 0%nat) as (qs & Hqs & Hlen).
  { intros j. apply Hfin. }
  destruct qs as [|v0 qs]; [simpl in Hlen; lia|].
  exists v0, qs. rewrite max_drawdown_pct_eq. unfold column_cells.
  rewrite Hqs. repeat split; try done.
  destruct (len (ohlcv_data self)) as [|n]; [lia|].
  simpl in Hqs. by injection Hqs.
Qed.
End Runs.




(** C1 at the failing input: a one-bar run with [next_open] execution
    completes and leaves its only row with the position quantity unset, so
    the row does not balance; the snapshot that opens every run leaves the
    position quantity of the first row as it was at construction. *)
Theorem single_bar_next_open_row_unbalanced :
  Backtester_init one_bar (mkTestStrategy ["hold"]) 100000 2 1 1 "next_open"
    = Ok (single_bar_engine, fresh_state 100000) ∧
  is_Ok single_bar_run.1 = true ∧
  position_qty (positions_df single_bar_run.2 0) = NaN ∧
  cash (positions_df single_bar_run.2 0) = Finite 100000 ∧
  cash_conservation (positions_df single_bar_run.2 0) 100 = false ∧
  (∀ (S : Type) (H : BaseStrategy S) (bt : Backtester S) signals capital c,
     position_qty (positions_df
                     (snapshot 0 c (init_rows bt signals (fresh_state capital))) 0)
     = NaN).
Proof.
  split; [by apply default_engine_constructed|].
  repeat split; try by vm_compute.
Qed.

(** * Further properties *)

(** ** Engine: the ledger *)

Section Ledger.
Context {S : Type} `{BaseStrategy S}.
Implicit Types (self : Backtester S) (st : BacktesterState).

Lemma cover_short_log self ts px st :
  ∃ new, trade_log (cover_short self ts px st).2 = trade_log st ++ new ∧
         (length new ≤ 1)%nat ∧ Forall (record_ok self) new.
Proof.
  unfold cover_short.
  destruct (Qlt_bool (current_position_qty st) 0) eqn:E; simpl.
  - eexists [_]. split; [done|]. split; [simpl; lia|].
    constructor; [|constructor]. split; [done|]. right. simpl.
    split; [by left|]. split; [done|].
    apply Qlt_bool_iff in E. rewrite Qabs_neg by lra. lra.
  - exists []. rewrite app_nil_r. split; [done|]. split; [simpl; lia | constructor].
Qed.

Lemma close_long_log self ts px st :
  ∃ new, trade_log (close_long self ts px st).2 = trade_log st ++ new ∧
         (length new ≤ 1)%nat ∧ Forall (record_ok self) new.
Proof.
  unfold close_long.
  destruct (Qlt_bool 0 (current_position_qty st)) eqn:E; simpl.
  - eexists [_]. split; [done|]. split; [simpl; lia|].
    constructor; [|constructor]. split; [done|]. right. simpl.
    split; [by right|]. split; [done|]. by apply Qlt_bool_iff in E.
  - exists []. rewrite app_nil_r. split; [done|]. split; [simpl; lia | constructor].
Qed.

Lemma open_long_log self ts px c st :
  ∃ new, trade_log (open_long self ts px c st) = trade_log st ++ new ∧
         (length new ≤ 1)%nat ∧ Forall (record_ok self) new.
Proof.
  unfold open_long.
  destruct (Qeq_bool (current_position_qty st) 0);
    [destruct (Qle_bool _ (current_cash st))|]; simpl.
  - eexists [_]. split; [done|]. split; [simpl; lia|].
    constructor; [|constructor]. split; [done|]. left. simpl. by split; [left|].
  - exists []. rewrite app_nil_r. split; [done|]. split; [simpl; lia | constructor].
  - exists []. rewrite app_nil_r. split; [done|]. split; [simpl; lia | constructor].
Qed.

Lemma open_short_log_new self ts px c st :
  ∃ new, trade_log (open_short self ts px c st) = trade_log st ++ new ∧
         (length new ≤ 1)%nat ∧ Forall (record_ok self) new.
Proof.
  unfold open_short.
  destruct (Qeq_bool (current_position_qty st) 0); simpl.
  - eexists [_]. split; [done|]. split; [simpl; lia|].
    constructor; [|constructor]. split; [done|]. left. simpl. by split; [right|].
  - exists []. rewrite app_nil_r. split; [done|]. split; [simpl; lia | constructor].
Qed.

(** A signal appends at most two records, each well formed. *)
Lemma handle_signal_log self ts sig px c st :
  ∃ new, trade_log (handle_signal self ts sig px c st).2 = trade_log st ++ new ∧
         (length new ≤ 2)%nat ∧ Forall (record_ok self) new.
Proof.
  destruct (decide (sig = Some "buy")) as [->|Hb];
    [|destruct (decide (sig = Some "sell")) as [->|Hs]].
  - rewrite handle_signal_buy. cbn [snd].
    destruct (cover_short_log self ts px st) as (n1 & E1 & L1 & F1).
    destruct (open_long_log self ts px c (cover_short self ts px st).2)
      as (n2 & E2 & L2 & F2).
    exists (n1 ++ n2). rewrite E2, E1, app_assoc. split; [done|].
    split; [rewrite length_app; lia | by apply Forall_app].
  - rewrite handle_signal_sell. cbn [snd].
    destruct (close_long_log self ts px st) as (n1 & E1 & L1 & F1).
    destruct (open_short_log_new self ts px c (close_long self ts px st).2)
      as (n2 & E2 & L2 & F2).
    exists (n1 ++ n2). rewrite E2, E1, app_assoc. split; [done|].
    split; [rewrite length_app; lia | by apply Forall_app].
  - rewrite handle_signal_other by done. exists []. rewrite app_nil_r.
    split; [done|]. split; [simpl; lia | constructor].
Qed.

Lemma process_bar_log self i ts st :
  ∃ new, trade_log (process_bar self i ts st).2 = trade_log st ++ new ∧
         (length new ≤ 2)%nat ∧ Forall (record_ok self) new.
Proof.
  destruct (process_bar_account self i ts st) as [Hacc|(c & px & Hacc)];
    apply account_fields in Hacc as (-> & _).
  - exists []. rewrite app_nil_r. split; [done|]. split; [simpl; lia | constructor].
  - destruct (handle_signal_log self ts (signal (positions_df st i)) px c
                (snapshot i c st)) as (new & E & L & F).
    exists new. rewrite E.
    by destruct (account_fields _ _ (account_snapshot i c st)) as (-> & _).
Qed.

Lemma run_loop_log self idxs :
  ∀ st, ∃ new, trade_log (run_loop self idxs st).2 = trade_log st ++ new ∧
               (length new ≤ 2 * length idxs)%nat ∧ Forall (record_ok self) new.
Proof.
  induction idxs as [|i idxs IH]; intros st.
  - exists []. rewrite app_nil_r. split; [done|]. split; [simpl; lia | constructor].
  - unfold run_loop. rewrite for_bars_cons.
    destruct (process_bar_log self i (index_at (index (ohlcv_data self)) i) st)
      as (n1 & E1 & L1 & F1).
    destruct (process_bar self i _ st) as [[[]|e] st1]; cbn [snd] in *.
    + fold (run_loop self idxs st1).
      destruct (IH st1) as (n2 & E2 & L2 & F2).
      exists (n1 ++ n2). rewrite E2, E1, app_assoc. split; [done|].
      split; [rewrite length_app; simpl; lia | by apply Forall_app].
    + exists n1. split; [done|]. split; [simpl; lia | done].
Qed.

Lemma run_log self st m st' :
  run self st = (Ok m, st') →
  m_trade_log m = trade_log st' ∧
  ∃ new, trade_log st' = trade_log st ++ new ∧
         (length new ≤ 2 * len (ohlcv_data self))%nat ∧
         Forall (record_ok self) new.
Proof.
  intros Hrun. apply run_Ok in Hrun as (signals & _ & _ & _ & Hloop & ->).
  split.
  { unfold calculate_performance_metrics.
    by destruct (foldl count_trade _ _) as [[n w] l]. }
  destruct (run_loop_log self (seq 0 (len (ohlcv_data self)))
              (init_rows self signals st)) as (new & E & L & F).
  rewrite Hloop in E. cbn [snd] in E. exists new.
  rewrite length_seq in L. by repeat split.
Qed.
End Ledger.

(** X1: the ledger is append-only: a run keeps the records it started with,
    in order, adds at most two records per bar, and hands the resulting
    ledger back in its results. *)
Theorem ledger_append_only {S : Type} `{BaseStrategy S}
    (self : Backtester S) (st : BacktesterState) (m : Metrics) (st' : BacktesterState) :
  run self st = (Ok m, st') →
  ∃ new, m_trade_log m = trade_log st ++ new ∧
         (length new ≤ 2 * len (ohlcv_data self))%nat.
Proof.
  intros Hrun. destruct (run_log self st m st' Hrun) as (-> & new & E & L & _).
  by exists new.
Qed.

Lemma round_trip_run_completes :
  run round_trip_engine (fresh_state 100000)
  = (Ok (final_metrics round_trip_engine (fresh_state 100000)),
     final_state round_trip_engine (fresh_state 100000)).
Proof. vm_compute. reflexivity. Defined.

Lemma ledger_append_only_witness :
  ∃ new, m_trade_log (final_metrics round_trip_engine (fresh_state 100000))
         = [] ++ new ∧ (length new ≤ 2 * 2)%nat.
Proof.
  apply (ledger_append_only round_trip_engine (fresh_state 100000) _ _
           round_trip_run_completes).
Defined.



(** X3: every record of the ledger of a run is of one of the four kinds; an
    opening record ([buy_long], [sell_short]) has profit 0 and the fixed
    position size; a closing record ([cover_short], [sell_long]) has a
    positive size and a portfolio value equal to the cash after the trade. *)
Theorem ledger_kinds {S : Type} `{BaseStrategy S}
    (self : Backtester S) (st : BacktesterState) (m : Metrics) (st' : BacktesterState) :
  run self st = (Ok m, st') →
  trade_log st = [] →
  Forall (kind_ok self) (m_trade_log m).
Proof.
  intros Hrun Hempty.
  destruct (run_log self st m st' Hrun) as (-> & new & -> & _ & Hok).
  rewrite Hempty. simpl.
  eapply Forall_impl; [|exact Hok]. by intros t [_ Hk].
Qed.

Lemma ledger_kinds_witness :
  Forall (kind_ok round_trip_engine)
         (m_trade_log (final_metrics round_trip_engine (fresh_state 100000))).
Proof.
  apply (ledger_kinds round_trip_engine (fresh_state 100000) _ _
           round_trip_run_completes).
  reflexivity.
Defined.

(** ** Engine: the account *)

Section Account.
Context {S : Type} `{BaseStrategy S}.
Implicit Types (self : Backtester S) (st : BacktesterState).

Lemma handle_signal_flat_without_entry self ts sig px c st :
  ¬ default_position_size self == 0 →
  flat_without_entry st →
  flat_without_entry (handle_signal self ts sig px c st).2.
Proof.
  intros Hd Hflat.
  assert (∀ s, flat_without_entry s → flat_without_entry (open_long self ts px c s))
    as Hlong.
  { intros s Hs. destruct (open_long_position self ts px c s) as [->|[Hz Hq]]; [done|].
    intros Hq'. rewrite Hq in Hq'. contradiction. }
  assert (∀ s, flat_without_entry s → flat_without_entry (open_short self ts px c s))
    as Hshort.
  { intros s Hs. destruct (open_short_position self ts px c s) as [[-> _]|[Hz Hq]];
      [done|].
    intros Hq'. rewrite Hq in Hq'. exfalso. apply Hd. lra. }
  destruct (decide (sig = Some "buy")) as [->|Hb];
    [|destruct (decide (sig = Some "sell")) as [->|Hs]].
  - rewrite handle_signal_buy. cbn [snd]. apply Hlong.
    unfold cover_short. destruct (Qlt_bool (current_position_qty st) 0); [|done].
    intros _. reflexivity.
  - rewrite handle_signal_sell. cbn [snd]. apply Hshort.
    unfold close_long. destruct (Qlt_bool 0 (current_position_qty st)); [|done].
    intros _. reflexivity.
  - by rewrite handle_signal_other.
Qed.

Lemma account_flat_without_entry st1 st2 :
  account st1 = account st2 → flat_without_entry st2 → flat_without_entry st1.
Proof.
  intros Hacc. apply account_fields in Hacc as (_ & _ & Hq & Ha).
  unfold flat_without_entry. by rewrite Hq, Ha.
Qed.

Lemma process_bar_flat_without_entry self i ts st :
  ¬ default_position_size self == 0 →
  flat_without_entry st →
  flat_without_entry (process_bar self i ts st).2.
Proof.
  intros Hd Hflat.
  destruct (process_bar_account self i ts st) as [Hacc|(c & px & Hacc)];
    apply (account_flat_without_entry _ _ Hacc); [done|].
  apply handle_signal_flat_without_entry; [done|].
  by apply (account_flat_without_entry _ _ (account_snapshot i c st)).
Qed.

Lemma run_loop_flat_without_entry self idxs :
  ¬ default_position_size self == 0 →
  ∀ st, flat_without_entry st → flat_without_entry (run_loop self idxs st).2.
Proof.
  intros Hd. induction idxs as [|i idxs IH]; intros st Hflat; [done|].
  unfold run_loop. rewrite for_bars_cons.
  pose proof (process_bar_flat_without_entry self i
                (index_at (index (ohlcv_data self)) i) st Hd Hflat) as Hstep.
  destruct (process_bar self i _ st) as [[[]|e] st1]; cbn [snd] in *; [|done].
  by apply IH.
Qed.

Lemma open_long_executes self ts px c st :
  current_position_qty st == 0 →
  default_position_size self * px
    + _calculate_commission self (default_position_size self * px)
  <= current_cash st →
  ∃ r, trade_log (open_long self ts px c st) = trade_log st ++ [r] ∧
       tr_type r = "buy_long" ∧
       current_position_qty (open_long self ts px c st)
         == default_position_size self ∧
       current_cash (open_long self ts px c st)
         == current_cash st
            - (default_position_size self * px
               + _calculate_commission self (default_position_size self * px)).
Proof.
  intros Hflat Hfunds. unfold open_long.
  rewrite (proj2 (Qeq_bool_iff _ _) Hflat), (proj2 (Qle_bool_iff _ _) Hfunds).
  simpl. eexists. repeat split; try done; lra.
Qed.

(** The value of the account at the close, before and after a signal that
    executes at that close. *)
Lemma handle_signal_costs self ts sig c st :
  costs_nonnegative self → 0 <= c →
  account_value (handle_signal self ts sig (apply_slippage self sig c) c st).2 c
  <= account_value st c.
Proof.
  intros (Hr & Hs & Hd) Hc. unfold account_value.
  destruct (decide (sig = Some "buy")) as [->|Hb];
    [|destruct (decide (sig = Some "sell")) as [->|Hsell]].
  - rewrite handle_signal_buy. cbn [snd].
    unfold apply_slippage. rewrite bool_decide_true by done.
    set (px := c * (1 + slippage_rate self)).
    assert (c <= px) as Hpx by (unfold px; nra).
    assert (account_value (cover_short self ts px st).2 c <= account_value st c)
      as Hcover.
    { unfold account_value, cover_short.
      destruct (Qlt_bool (current_position_qty st) 0) eqn:E; [|simpl; lra].
      apply Qlt_bool_iff in E. simpl. unfold _calculate_commission.
      rewrite (Qabs_neg (current_position_qty st)) by lra.
      pose proof (Qabs_nonneg (- current_position_qty st * px)) as Habs.
      assert (0 <= Qabs (- current_position_qty st * px) * commission_rate self)
        by (by apply Qmult_le_0_compat).
      nra. }
    eapply Qle_trans; [|exact Hcover]. unfold account_value.
    generalize (cover_short self ts px st).2. intros s.
    unfold open_long. destruct (Qeq_bool (current_position_qty s) 0); [|lra].
    destruct (Qle_bool _ (current_cash s)); [|lra].
    simpl. unfold _calculate_commission.
    pose proof (Qabs_nonneg (default_position_size self * px)) as Habs.
    assert (0 <= Qabs (default_position_size self * px) * commission_rate self)
      by (by apply Qmult_le_0_compat).
    nra.
  - rewrite handle_signal_sell. cbn [snd].
    unfold apply_slippage. rewrite bool_decide_false, bool_decide_true by done.
    set (px := c * (1 - slippage_rate self)).
    assert (px <= c) as Hpx by (unfold px; nra).
    assert (account_value (close_long self ts px st).2 c <= account_value st c)
      as Hclose.
    { unfold account_value, close_long.
      destruct (Qlt_bool 0 (current_position_qty st)) eqn:E; [|simpl; lra].
      apply Qlt_bool_iff in E. simpl. unfold _calculate_commission.
      pose proof (Qabs_nonneg (current_position_qty st * px)) as Habs.
      assert (0 <= Qabs (current_position_qty st * px) * commission_rate self)
        by (by apply Qmult_le_0_compat).
      nra. }
    eapply Qle_trans; [|exact Hclose]. unfold account_value.
    generalize (close_long self ts px st).2. intros s.
    unfold open_short. destruct (Qeq_bool (current_position_qty s) 0); [|lra].
    simpl. unfold _calculate_commission.
    pose proof (Qabs_nonneg (default_position_size self * px)) as Habs.
    assert (0 <= Qabs (default_position_size self * px) * commission_rate self)
      by (by apply Qmult_le_0_compat).
    nra.
  - rewrite handle_signal_other by done. simpl. lra.
Qed.
End Account.

(** X4: with a position size other than 0, a flat position has no entry
    price: if the average entry price is 0 whenever the quantity is 0 before
    a run (as it is after construction), the same holds after any bars and
    at the end of the run. *)
Theorem flat_position_has_no_entry_price {S : Type} `{BaseStrategy S}
    (self : Backtester S) :
  ¬ default_position_size self == 0 →
  (∀ idxs st, flat_without_entry st → flat_without_entry (run_loop self idxs st).2) ∧
  (∀ st m st', flat_without_entry st → run self st = (Ok m, st') →
               flat_without_entry st').
Proof.
  intros Hd. split.
  - intros idxs st. by apply run_loop_flat_without_entry.
  - intros st m st' Hflat Hrun.
    apply run_Ok in Hrun as (signals & _ & _ & _ & Hloop & _).
    pose proof (run_loop_flat_without_entry self (seq 0 (len (ohlcv_data self))) Hd
                  (init_rows self signals st) Hflat) as Hend.
    by rewrite Hloop in Hend.
Qed.

Lemma flat_position_has_no_entry_price_witness :
  flat_without_entry (final_state round_trip_engine (fresh_state 100000)).
Proof.
  assert (¬ default_position_size round_trip_engine == 0) as Hd.
  { intros Hz. vm_compute in Hz. discriminate. }
  destruct (flat_position_has_no_entry_price round_trip_engine Hd) as [_ Hrun].
  apply (Hrun (fresh_state 100000)
               (final_metrics round_trip_engine (fresh_state 100000)));
    [|exact round_trip_run_completes].
  intros _. reflexivity.
Defined.



(** X6: a signal against an open position reverses it.  A sell while long
    closes the whole long and opens a short of the fixed size, with two
    records; a buy while short covers the whole short and then opens a long
    of the fixed size when the cash left covers it, and otherwise leaves the
    engine flat with the covering record only. *)
Theorem opposite_signal_reverses {S : Type} `{BaseStrategy S}
    (self : Backtester S) (timestamp : Z) (px c : Q) (st : BacktesterState) :
  (0 < current_position_qty st →
   ∃ r1 r2,
     trade_log (handle_signal self timestamp (Some "sell") px c st).2
       = trade_log st ++ [r1; r2] ∧
     tr_type r1 = "sell_long" ∧ tr_type r2 = "sell_short" ∧
     tr_size r1 = current_position_qty st ∧
     tr_pnl r1 = current_position_qty st * (px - avg_entry_price st)
                 - _calculate_commission self (current_position_qty st * px) ∧
     (handle_signal self timestamp (Some "sell") px c st).1 = tr_pnl r1 ∧
     current_position_qty (handle_signal self timestamp (Some "sell") px c st).2
       == - default_position_size self ∧
     avg_entry_price (handle_signal self timestamp (Some "sell") px c st).2 = px) ∧
  (current_position_qty st < 0 →
   ∃ r1,
     trade_log (cover_short self timestamp px st).2 = trade_log st ++ [r1] ∧
     tr_type r1 = "cover_short" ∧ tr_size r1 = Qabs (current_position_qty st) ∧
     tr_pnl r1 = Qabs (current_position_qty st) * (avg_entry_price st - px)
                 - _calculate_commission self (Qabs (current_position_qty st) * px) ∧
     (entry_cost self px <= current_cash (cover_short self timestamp px st).2 →
      ∃ r2,
        trade_log (handle_signal self timestamp (Some "buy") px c st).2
          = trade_log st ++ [r1; r2] ∧
        tr_type r2 = "buy_long" ∧
        current_position_qty (handle_signal self timestamp (Some "buy") px c st).2
          == default_position_size self) ∧
     (current_cash (cover_short self timestamp px st).2 < entry_cost self px →
      (handle_signal self timestamp (Some "buy") px c st).2
      = (cover_short self timestamp px st).2 ∧
      current_position_qty (cover_short self timestamp px st).2 = 0 ∧
      avg_entry_price (cover_short self timestamp px st).2 = 0)).
Proof.
  split.
  - intros Hlong. rewrite handle_signal_sell. cbn [fst snd].
    unfold close_long. rewrite (proj2 (Qlt_bool_iff _ _) Hlong). cbn [fst snd].
    unfold open_short. simpl. eexists _, _. rewrite <- app_assoc. simpl.
    repeat split; try done. lra.
  - intros Hshort. unfold entry_cost.
    rewrite handle_signal_buy. cbn [fst snd].
    unfold cover_short. rewrite (proj2 (Qlt_bool_iff _ _) Hshort). cbn [fst snd].
    eexists. repeat split; try done.
    + intros Hfunds.
      edestruct (open_long_executes self timestamp px c) as (r2 & Hlog & Hty & Hq & _);
        [|exact Hfunds|]; [reflexivity|].
      exists r2. rewrite Hlog. simpl. rewrite <- app_assoc. by repeat split.
    + by apply open_long_insufficient.
Qed.

Lemma opposite_signal_reverses_witness :
  current_position_qty (handle_signal round_trip_engine 0%Z (Some "sell") 110 110
                                      long_state).2 == - (1) ∧
  current_position_qty (handle_signal round_trip_engine 0%Z (Some "buy") 90 90
                                      short_state).2 == 1.
Proof.
  destruct (opposite_signal_reverses round_trip_engine 0%Z 110 110 long_state)
    as [Hsell _].
  destruct (opposite_signal_reverses round_trip_engine 0%Z 90 90 short_state)
    as [_ Hbuy].
  split.
  - destruct Hsell as (r1 & r2 & _ & _ & _ & _ & _ & _ & Hq & _).
    + vm_compute. reflexivity.
    + exact Hq.
  - destruct Hbuy as (r1 & _ & _ & _ & _ & Hopen & _).
    + vm_compute. reflexivity.
    + destruct Hopen as (r2 & _ & _ & Hq).
      * vm_compute. discriminate.
      * exact Hq.
Defined.

(** X7: from a flat position a sell always opens the short, whatever the
    cash, adding one [sell_short] record and the proceeds less commission to
    the cash; a buy opens the long exactly when the cash covers trade value
    plus commission, and changes nothing otherwise. *)
Theorem entries_from_flat {S : Type} `{BaseStrategy S}
    (self : Backtester S) (timestamp : Z) (px c : Q) (st : BacktesterState) :
  current_position_qty st == 0 →
  (∃ r,
     trade_log (handle_signal self timestamp (Some "sell") px c st).2
       = trade_log st ++ [r] ∧
     tr_type r = "sell_short" ∧
     current_position_qty (handle_signal self timestamp (Some "sell") px c st).2
       == - default_position_size self ∧
     current_cash (handle_signal self timestamp (Some "sell") px c st).2
       == current_cash st + default_position_size self * px
          - _calculate_commission self (default_position_size self * px)) ∧
  (entry_cost self px <= current_cash st →
   ∃ r,
     trade_log (handle_signal self timestamp (Some "buy") px c st).2
       = trade_log st ++ [r] ∧
     tr_type r = "buy_long" ∧
     current_position_qty (handle_signal self timestamp (Some "buy") px c st).2
       == default_position_size self ∧
     current_cash (handle_signal self timestamp (Some "buy") px c st).2
       == current_cash st - entry_cost self px) ∧
  (current_cash st < entry_cost self px →
   (handle_signal self timestamp (Some "buy") px c st).2 = st).
Proof.
  intros Hflat. unfold entry_cost.
  assert (Qlt_bool (current_position_qty st) 0 = false) as Hnot_short
    by (apply Qlt_bool_false; lra).
  assert (Qlt_bool 0 (current_position_qty st) = false) as Hnot_long
    by (apply Qlt_bool_false; lra).
  assert (Qeq_bool (current_position_qty st) 0 = true) as Hzero
    by (by apply Qeq_bool_iff).
  split; [|split].
  - rewrite handle_signal_sell. cbn [snd]. unfold close_long.
    rewrite Hnot_long. cbn [snd]. unfold open_short. rewrite Hzero. simpl.
    eexists. repeat split; try done; lra.
  - intros Hfunds. rewrite handle_signal_buy. cbn [snd]. unfold cover_short.
    rewrite Hnot_short. cbn [snd].
    destruct (open_long_executes self timestamp px c st Hflat Hfunds)
      as (r & Hlog & Hty & Hq & Hk).
    by exists r.
  - intros Hpoor. rewrite handle_signal_buy. cbn [snd]. unfold cover_short.
    rewrite Hnot_short. cbn [snd]. by apply open_long_insufficient.
Qed.

Lemma entries_from_flat_witness :
  current_position_qty
    (handle_signal cash_poor_engine 0%Z (Some "sell") 100 100 (fresh_state 50)).2
  == - (1) ∧
  (handle_signal cash_poor_engine 0%Z (Some "buy") 100 100 (fresh_state 50)).2
  = fresh_state 50.
Proof.
  destruct (entries_from_flat cash_poor_engine 0%Z 100 100 (fresh_state 50))
    as ((r & _ & _ & Hq & _) & _ & Hpoor).
  - reflexivity.
  - split; [exact Hq|]. apply Hpoor. vm_compute. reflexivity.
Defined.

(** ** Engine: construction and completion *)

Section Completion.
Context {S : Type} `{BaseStrategy S}.
Implicit Types (self : Backtester S) (st : BacktesterState).

Lemma in_columns_column (df : DataFrame) (c : string) :
  in_columns c df = true ↔ is_Some (column df c).
Proof.
  unfold in_columns, column, labels. rewrite bool_decide_eq_true. split.
  - apply find_column_is_Some.
  - induction (columns df) as [|[l s] cols IH]; simpl.
    + by intros [? ?].
    + destruct (decide (l = c)) as [->|]; [by left | right; by apply IH].
Qed.

Lemma getitem_column (df : DataFrame) (i : nat) (c : string) (s : Series) :
  column df c = Some s → getitem (iloc df i) c = Ok (values s i).
Proof. intros Hc. unfold getitem, iloc. by rewrite Hc. Qed.

(** With the close and open columns in place a bar raises nothing. *)
Lemma process_bar_Ok self i ts st :
  is_Some (column (ohlcv_data self) "close") →
  is_Some (column (ohlcv_data self) "open") →
  ∃ st', process_bar self i ts st = (Ok (), st').
Proof.
  intros [sc Hc] [so Ho]. rewrite process_bar_unfold.
  rewrite (getitem_column _ i _ _ Hc). unfold _get_execution_price.
  rewrite (getitem_column _ i _ _ Hc), (getitem_column _ (i + 1) _ _ Ho).
  destruct (bool_decide _); [destruct (_ <? _)%nat|]; simpl; by eexists.
Qed.

Lemma run_loop_Ok self idxs :
  is_Some (column (ohlcv_data self) "close") →
  is_Some (column (ohlcv_data self) "open") →
  ∀ st, ∃ st', run_loop self idxs st = (Ok (), st').
Proof.
  intros Hc Ho. induction idxs as [|i idxs IH]; intros st; [by eexists|].
  unfold run_loop. rewrite for_bars_cons.
  destruct (process_bar_Ok self i (index_at (index (ohlcv_data self)) i) st Hc Ho)
    as [st1 ->].
  apply IH.
Qed.
End Completion.

(** X8: the constructor accepts exactly the frames with a [DatetimeIndex]
    and the four price columns under their lower-case names; it then keeps
    the frame, turns basis points into rates, lower-cases the execution
    mode and starts flat with the initial capital as cash.  Its only errors
    are the two [ValueError]s for the index and for the columns; the third
    check, for the [open] column under [next_open], never fires. *)
Theorem constructor_accepts {S : Type} (df : DataFrame) (strategy_instance : S)
    (capital commission_bps slippage_bps size : Q) (mode : string) :
  (isinstance_DatetimeIndex (index df) = true →
   (∀ c, c ∈ required_cols → is_Some (column df c)) →
   Backtester_init df strategy_instance capital commission_bps slippage_bps size mode
   = Ok (mkBacktester df strategy_instance capital (commission_bps / 10000)
                      (slippage_bps / 10000) size (lower mode),
         fresh_state capital)) ∧
  (∀ self st,
     Backtester_init df strategy_instance capital commission_bps slippage_bps size mode
     = Ok (self, st) →
     isinstance_DatetimeIndex (index df) = true ∧
     (∀ c, c ∈ required_cols → is_Some (column df c))) ∧
  (∀ e,
     Backtester_init df strategy_instance capital commission_bps slippage_bps size mode
     = Raise e →
     e = ValueError "ohlcv_data must be a pandas DataFrame with a DatetimeIndex." ∨
     e = ValueError "ohlcv_data must contain ['open', 'high', 'low', 'close'] columns.").
Proof.
  unfold Backtester_init.
  destruct (isinstance_DatetimeIndex (index df)); cbn [negb].
  2: { repeat split; try done. intros e [= <-]. by left. }
  destruct (forallb (λ col, in_columns col df) required_cols) eqn:Hcols; cbn [negb].
  - assert (∀ c, c ∈ required_cols → is_Some (column df c)) as Hall.
    { intros c Hc. apply in_columns_column.
      rewrite forallb_forall in Hcols. by apply Hcols, list_elem_of_In. }
    assert (in_columns "open" df = true) as ->.
    { apply in_columns_column, Hall. by left. }
    rewrite andb_false_r. repeat split; done.
  - split; [|split].
    + intros _ Hall. exfalso.
      assert (forallb (λ col, in_columns col df) required_cols = true) as Hyes.
      { apply forallb_forall. intros c Hc.
        by apply in_columns_column, Hall, list_elem_of_In. }
      congruence.
    + done.
    + intros e [= <-]. by right.
Qed.

Lemma constructor_accepts_witness :
  Backtester_init two_bars (mkTestStrategy ["buy"; "sell"]) 100000 2 1 1 "CLOSE"
  = Ok (round_trip_engine, fresh_state 100000).
Proof.
  destruct (constructor_accepts two_bars (mkTestStrategy ["buy"; "sell"])
              100000 2 1 1 "CLOSE") as [Hok _].
  apply Hok.
  - reflexivity.
  - intros c Hc.
    repeat (apply elem_of_cons in Hc as [->|Hc]; [by eexists|]).
    by apply elem_of_nil in Hc.
Defined.

(** X9: a run over a frame without rows does not complete: when the
    strategy hands back the empty signal sequence and the frame has a
    [close] column, the run raises [IndexError] on reading the first close,
    after the columns of the valuation frame were initialised. *)
Theorem run_on_empty_frame {S : Type} `{BaseStrategy S}
    (self : Backtester S) (st : BacktesterState) :
  len (ohlcv_data self) = 0%nat →
  (∀ m st', run self st ≠ (Ok m, st')) ∧
  (is_Some (column (ohlcv_data self) "close") →
   generate_signals (strategy self) (ohlcv_data self) = Ok [] →
   run self st = (Raise IndexError, init_rows self [] st)).
Proof.
  intros Hlen. split.
  - intros m st' Hrun. apply run_Ok in Hrun as (_ & _ & _ & Hpos & _). lia.
  - intros [s Hs] Hsig.
    unfold run, mbind, M_bind, lift, raise, modify, gets, first_close.
    by rewrite Hsig, Hlen, Hs.
Qed.

Lemma run_on_empty_frame_witness :
  run empty_engine (fresh_state 100000)
  = (Raise IndexError, init_rows empty_engine [] (fresh_state 100000)).
Proof.
  destruct (run_on_empty_frame empty_engine (fresh_state 100000) eq_refl)
    as [_ Hraise].
  apply Hraise; [by eexists | reflexivity].
Defined.



(** ** Engine: the final valuation *)

Section Valuation.
Context {S : Type} `{BaseStrategy S}.
Implicit Types (self : Backtester S) (st : BacktesterState).

Lemma snapshot_valuation i c st :
  cash_carried i st →
  cash (positions_df (snapshot i c st) i) = Finite (current_cash st) ∧
  portfolio_value (positions_df (snapshot i c st) i) = Finite (account_value st c).
Proof.
  unfold cash_carried, snapshot, mark_to_market, carry_forward, account_value.
  intros Hcash. destruct (Nat.ltb_spec 0 i) as [Hpos|Hzero].
  - rewrite !set_row_same. simpl. by rewrite Hcash.
  - assert (i = 0)%nat as -> by lia. rewrite set_row_same. simpl.
    simpl in Hcash. by rewrite Hcash.
Qed.

(** A completed bar leaves its row valued at the account it leaves. *)
Lemma process_bar_valuation self i ts st st' :
  cash_carried i st →
  process_bar self i ts st = (Ok (), st') →
  ∃ c, getitem (iloc (ohlcv_data self) i) "close" = Ok c ∧
       cash (positions_df st' i) = Finite (current_cash st') ∧
       portfolio_value (positions_df st' i) = Finite (account_value st' c).
Proof.
  intros Hcash. rewrite process_bar_unfold.
  destruct (getitem _ "close") as [c|e]; [|done].
  destruct (snapshot_valuation i c st Hcash) as [Hk Hv].
  destruct (account_fields _ _ (account_snapshot i c st)) as (_ & Hk' & Hq' & _).
  destruct (_get_execution_price _ _ _) as [[px|]|e]; [| |done].
  - destruct (handle_signal _ _ _ _ _ _) as [pnl st2].
    intros [= <-]. exists c. split; [done|].
    unfold record_row. by rewrite set_row_same.
  - intros [= <-]. exists c. split; [done|].
    unfold account_value in *. by rewrite Hk, Hv, Hk', Hq'.
Qed.

Lemma run_loop_valuation self n :
  ∀ a st st',
    cash_carried a st →
    run_loop self (seq a (Datatypes.S n)) st = (Ok (), st') →
    ∃ c, getitem (iloc (ohlcv_data self) (a + n)) "close" = Ok c ∧
         portfolio_value (positions_df st' (a + n)) = Finite (account_value st' c).
Proof.
  induction n as [|n IH]; intros a st st' Hcash; unfold run_loop;
    simpl seq; rewrite for_bars_cons.
  - pose proof (process_bar_valuation self a
                  (index_at (index (ohlcv_data self)) a) st) as Hbar.
    destruct (process_bar self a _ st) as [[[]|e] st1]; [|done].
    simpl. intros [= <-]. rewrite Nat.add_0_r.
    destruct (Hbar st1 Hcash eq_refl) as (c & Hc & _ & Hv). by exists c.
  - pose proof (process_bar_valuation self a
                  (index_at (index (ohlcv_data self)) a) st) as Hbar.
    destruct (process_bar self a _ st) as [[[]|e] st1]; [|done].
    destruct (Hbar st1 Hcash eq_refl) as (c & _ & Hk & _).
    fold (run_loop self (seq (Datatypes.S a) (Datatypes.S n)) st1).
    intros Hrest.
    replace (a + Datatypes.S n)%nat with (Datatypes.S a + n)%nat by lia.
    apply (IH (Datatypes.S a) st1 st'); [|done].
    unfold cash_carried. by replace (Datatypes.S a - 1)%nat with a by lia.
Qed.

Lemma final_portfolio_value_eq self st :
  (0 < len (ohlcv_data self))%nat →
  final_portfolio_value (calculate_performance_metrics self st)
  = portfolio_value (positions_df st (len (ohlcv_data self) - 1)).
Proof.
  intros Hpos. unfold calculate_performance_metrics.
  destruct (foldl count_trade _ _) as [[n w] l]. simpl.
  destruct (Nat.eqb_spec (len (ohlcv_data self)) 0); [lia | done].
Qed.

Lemma run_final_value self st m st' :
  run self st = (Ok m, st') →
  current_cash st = initial_capital self →
  ∃ c, getitem (iloc (ohlcv_data self) (len (ohlcv_data self) - 1)) "close" = Ok c ∧
       final_portfolio_value m = Finite (account_value st' c).
Proof.
  intros Hrun Hcash.
  apply run_Ok in Hrun as (signals & _ & _ & Hpos & Hloop & ->).
  rewrite final_portfolio_value_eq by done.
  destruct (len (ohlcv_data self)) as [|n] eqn:Hn; [lia|].
  replace (Datatypes.S n - 1)%nat with (0 + n)%nat by lia.
  apply (run_loop_valuation self n 0 (init_rows self signals st) st'); [|done].
  unfold cash_carried. simpl. by rewrite Hcash.
Qed.

(** A bar whose signal is neither buy nor sell leaves the account alone. *)
Lemma process_bar_no_trade self i ts st :
  signal (positions_df st i) ≠ Some "buy" →
  signal (positions_df st i) ≠ Some "sell" →
  account (process_bar self i ts st).2 = account st.
Proof.
  intros Hb Hs.
  destruct (process_bar_account self i ts st) as [Hacc|(c & px & Hacc)]; [done|].
  rewrite Hacc, handle_signal_other by done. apply account_snapshot.
Qed.

Lemma run_loop_signal self idxs j :
  ∀ st, signal (positions_df (run_loop self idxs st).2 j) = signal (positions_df st j).
Proof.
  induction idxs as [|i idxs IH]; intros st; [done|].
  unfold run_loop. rewrite for_bars_cons.
  pose proof (process_bar_signal self i (index_at (index (ohlcv_data self)) i) st j)
    as Hstep.
  destruct (process_bar self i _ st) as [[[]|e] st1]; cbn [snd] in *; [|done].
  fold (run_loop self idxs st1). by rewrite IH.
Qed.

Lemma run_loop_no_trade self idxs :
  ∀ st,
    (∀ i, i ∈ idxs → signal (positions_df st i) ≠ Some "buy" ∧
                     signal (positions_df st i) ≠ Some "sell") →
    account (run_loop self idxs st).2 = account st.
Proof.
  induction idxs as [|i idxs IH]; intros st Hsig; [done|].
  unfold run_loop. rewrite for_bars_cons.
  destruct (Hsig i) as [Hb Hs]; [by left|].
  pose proof (process_bar_no_trade self i (index_at (index (ohlcv_data self)) i)
                st Hb Hs) as Hstep.
  pose proof (process_bar_signal self i (index_at (index (ohlcv_data self)) i) st)
    as Hsame.
  destruct (process_bar self i _ st) as [[[]|e] st1]; cbn [snd] in *; [|done].
  fold (run_loop self idxs st1). rewrite IH; [done|].
  intros j Hj. rewrite Hsame. apply Hsig. by right.
Qed.
End Valuation.

(** X11: the final portfolio value of a run that starts with the initial
    capital as cash is the account marked to market at the last close: the
    final cash plus the final position quantity times the close of the last
    bar. *)
Theorem final_value_is_marked_account {S : Type} `{BaseStrategy S}
    (self : Backtester S) (st : BacktesterState) (m : Metrics) (st' : BacktesterState) :
  run self st = (Ok m, st') →
  current_cash st = initial_capital self →
  ∃ c, getitem (iloc (ohlcv_data self) (len (ohlcv_data self) - 1)) "close" = Ok c ∧
       final_portfolio_value m
       = Finite (current_cash st' + current_position_qty st' * c).
Proof. apply run_final_value. Qed.

Lemma final_value_is_marked_account_witness :
  ∃ c, getitem (iloc two_bars 1) "close" = Ok c ∧
       final_portfolio_value (final_metrics round_trip_engine (fresh_state 100000))
       = Finite (current_cash (final_state round_trip_engine (fresh_state 100000))
                 + current_position_qty
                     (final_state round_trip_engine (fresh_state 100000)) * c).
Proof.
  apply (final_value_is_marked_account round_trip_engine (fresh_state 100000) _ _
           round_trip_run_completes).
  reflexivity.
Defined.


Lemma hold_run_completes :
  run hold_engine (fresh_state 100000)
  = (Ok (final_metrics hold_engine (fresh_state 100000)),
     final_state hold_engine (fresh_state 100000)).
Proof. vm_compute. reflexivity. Defined.


(** ** Metrics: closed trades *)

Lemma count_trade_sound (log : list TradeRecord) :
  ∀ n w l n' w' l',
    foldl count_trade (n, w, l) log = (n', w', l') →
    (w + l = n)%nat →
    (w' + l' = n')%nat ∧ (n' ≤ n + length log)%nat.
Proof.
  induction log as [|t log IH]; intros n w l n' w' l' Hfold Hsum.
  - injection Hfold as <- <- <-. simpl. lia.
  - cbn [foldl] in Hfold.
    destruct (count_trade (n, w, l) t) as [[n1 w1] l1] eqn:Et.
    assert ((w1 + l1 = n1)%nat ∧ (w ≤ w1)%nat ∧ (n1 ≤ n + 1)%nat) as (H1 & H2 & H3).
    { revert Et. unfold count_trade.
      destruct (Qeq_bool (tr_pnl t) 0) eqn:Ez; cbn [negb].
      - intros [= <- <- <-]. lia.
      - destruct (Qlt_bool 0 (tr_pnl t)) eqn:Ep; [intros [= <- <- <-]; lia|].
        destruct (Qlt_bool (tr_pnl t) 0) eqn:En; [intros [= <- <- <-]; lia|].
        exfalso. apply Qeq_bool_false in Ez.
        apply Qlt_bool_false in Ep. apply Qlt_bool_false in En.
        apply Ez. lra. }
    destruct (IH _ _ _ _ _ _ Hfold H1) as [H4 H5].
    simpl. lia.
Qed.


(** ** Detectors: the shape of the output *)

Lemma pair_blocks_at_most_one (prev curr : Candle) (volume : option Q) (sf : Q) :
  (length (pair_blocks prev curr volume sf) ≤ 1)%nat.
Proof.
  unfold pair_blocks, bullish_ob_test, bearish_ob_test, is_bearish, is_bullish.
  destruct (Qlt_bool (c_close prev) (c_open prev)) eqn:E1,
           (Qlt_bool (c_open prev) (c_close prev)) eqn:E2; simpl;
    try (destruct (_ && _); simpl; lia).
  - apply Qlt_bool_iff in E1, E2. lra.
  - lia.
Qed.

Lemma pair_blocks_fields (prev curr : Candle) (volume : option Q) (sf : Q)
    (ob : OrderBlock) :
  ob ∈ pair_blocks prev curr volume sf →
  ob_start_time ob = c_timestamp prev ∧ ob_end_time ob = c_timestamp prev ∧
  ob_high ob = c_high prev ∧ ob_low ob = c_low prev ∧
  ob_mitigated_time ob = None ∧ ob_mitigated_by_wick ob = false.
Proof.
  unfold pair_blocks, block_over. intros Hin.
  apply elem_of_app in Hin as [Hin|Hin];
    destruct (_ : bool); try (by apply elem_of_nil in Hin);
    apply list_elem_of_singleton in Hin as ->; done.
Qed.

Lemma triple_gaps_fields (c0 c2 : Candle) (g : FairValueGap) :
  g ∈ triple_gaps c0 c2 →
  fvg_low g < fvg_high g ∧
  fvg_start_time g = c_timestamp c0 ∧ fvg_end_time g = c_timestamp c2 ∧
  fvg_filled_time g = None ∧ fvg_partially_filled_level g = None.
Proof.
  unfold triple_gaps, bullish_gap, bearish_gap. intros Hin.
  destruct (Qlt_bool (c_high c2) (c_low c0)) eqn:E1.
  - apply list_elem_of_singleton in Hin as ->. simpl.
    by apply Qlt_bool_iff in E1.
  - destruct (Qlt_bool (c_high c0) (c_low c2)) eqn:E2.
    + apply list_elem_of_singleton in Hin as ->. simpl.
      by apply Qlt_bool_iff in E2.
    + by apply elem_of_nil in Hin.
Qed.

Lemma triple_gaps_at_most_one (c0 c2 : Candle) :
  (length (triple_gaps c0 c2) ≤ 1)%nat.
Proof.
  unfold triple_gaps. repeat destruct (Qlt_bool _ _); simpl; lia.
Qed.

Lemma flat_map_length_bound {A : Type} (f : nat → list A) (idxs : list nat) :
  (∀ i, length (f i) ≤ 1)%nat → (length (flat_map f idxs) ≤ length idxs)%nat.
Proof.
  intros Hf. induction idxs as [|i idxs IH]; simpl; [lia|].
  rewrite length_app. specialize (Hf i). lia.
Qed.

Lemma elem_of_flat_map {A : Type} (f : nat → list A) (idxs : list nat) (x : A) :
  x ∈ flat_map f idxs ↔ ∃ i, i ∈ idxs ∧ x ∈ f i.
Proof.
  rewrite list_elem_of_In, in_flat_map. split; intros (i & Hi & Hx); exists i.
  - by rewrite !list_elem_of_In.
  - by rewrite <- !list_elem_of_In.
Qed.

Lemma StronglySorted_append (l1 l2 : list Z) :
  StronglySorted Z.le l1 → StronglySorted Z.le l2 →
  (∀ x1 x2, x1 ∈ l1 → x2 ∈ l2 → (x1 ≤ x2)%Z) →
  StronglySorted Z.le (l1 ++ l2).
Proof.
  intros H1 H2 Hle. induction H1 as [|x l1 Hl1 IH Hx]; simpl; [done|].
  constructor.
  - apply IH. intros x1 x2 Hx1 Hx2. apply Hle; [by right | done].
  - apply Forall_app. split; [done|].
    apply Forall_forall. intros x2 Hx2. apply Hle; [by left|].
    by apply list_elem_of_In.
Qed.

(** What a detector emits over a range of positions is in the order of the
    positions. *)
Lemma flat_map_chronological {A : Type} (f : nat → list A) (key : A → Z)
    (t : nat → Z) (n : nat) :
  ∀ a,
    (∀ i x, x ∈ f i → key x = t i) →
    (∀ i j, (a ≤ i)%nat → (i ≤ j)%nat → (j < a + n)%nat → (t i ≤ t j)%Z) →
    StronglySorted Z.le (key <$> flat_map f (seq a n)).
Proof.
  induction n as [|n IH]; intros a Hkey Hmono; simpl; [constructor|].
  rewrite fmap_app. apply StronglySorted_append.
  - assert (∀ k, k ∈ key <$> f a → k = t a) as Hsame.
    { intros k Hk. apply list_elem_of_fmap in Hk as (x & -> & Hx). by apply Hkey. }
    induction (key <$> f a) as [|k ks IHk]; constructor.
    + apply IHk. intros k' Hk'. apply Hsame. by right.
    + apply Forall_forall. intros k' Hk'.
      rewrite (Hsame k) by left. rewrite (Hsame k'); [lia|].
      right. by apply list_elem_of_In.
  - apply IH; [done|]. intros i j Hi Hij Hj. apply Hmono; lia.
  - intros k1 k2 Hk1 Hk2.
    apply list_elem_of_fmap in Hk1 as (x1 & -> & Hx1).
    apply list_elem_of_fmap in Hk2 as (x2 & -> & Hx2).
    apply elem_of_flat_map in Hx2 as (j & Hj & Hx2).
    apply elem_of_seq in Hj.
    rewrite (Hkey a x1 Hx1), (Hkey j x2 Hx2). apply Hmono; lia.
Qed.

Lemma identify_order_blocks_prepared (df df' : DataFrame) (ts : nat → Timestamp)
    (sf : Q) :
  _ensure_datetime_index_and_columns df = Ok df' →
  index df' = DatetimeIndex ts →
  ∃ bars : nat → Candle,
    (∀ i, c_timestamp (bars i) = ts i) ∧
    identify_order_blocks df sf =
    Ok (flat_map (λ i, pair_blocks (bars (i - 1)%nat) (bars i)
                                   (iloc df' (i - 1) "volume") sf)
                 (seq 1 (len df - 1))).
Proof.
  intros Hprep Hix.
  destruct (prepared_candle_at df' ts (ensure_prepared df df' Hprep)) as [bars Hbars].
  exists bars. split.
  { intros i. by apply (candle_at_cells df' ts i). }
  unfold identify_order_blocks. rewrite Hprep, Hix, (ensure_len df df' Hprep).
  rewrite (for_each_append _
    (λ i, pair_blocks (bars (i - 1)%nat) (bars i) (iloc df' (i - 1) "volume") sf));
    [done|].
  intros i acc _. by apply order_blocks_body_pair.
Qed.

Lemma identify_fair_value_gaps_prepared (df df' : DataFrame) (ts : nat → Timestamp) :
  _ensure_datetime_index_and_columns df = Ok df' →
  index df' = DatetimeIndex ts →
  ∃ bars : nat → Candle,
    (∀ i, c_timestamp (bars i) = ts i) ∧
    identify_fair_value_gaps df =
    Ok (flat_map (λ i, triple_gaps (bars i) (bars (i + 2)%nat))
                 (seq 0 (len df - 2))).
Proof.
  intros Hprep Hix.
  destruct (prepared_candle_at df' ts (ensure_prepared df df' Hprep)) as [bars Hbars].
  exists bars. split.
  { intros i. by apply (candle_at_cells df' ts i). }
  unfold identify_fair_value_gaps. rewrite Hprep, Hix, (ensure_len df df' Hprep).
  destruct (Nat.ltb_spec (len df) 3) as [Hshort|Hlong].
  - by replace (len df - 2)%nat with 0%nat by lia.
  - rewrite (for_each_append _ (λ i, triple_gaps (bars i) (bars (i + 2)%nat)));
      [done|].
    intros i acc _. by apply fair_value_gaps_body_triple.
Qed.





(** ** Strategies: the signal sequence *)

Lemma bind_Ok {A B : Type} (m : result A) (f : A → result B) (b : B) :
  m ≫= f = Ok b → ∃ a, m = Ok a ∧ f a = Ok b.
Proof. destruct m as [a|e]; [|done]. intros Hf. by exists a. Qed.

Lemma for_each_invariant {St : Type} (P : St → Prop)
    (body : St → nat → result St) (idxs : list nat) :
  (∀ s i s', P s → body s i = Ok s' → P s') →
  ∀ s s', P s → for_each body s idxs = Ok s' → P s'.
Proof.
  intros Hbody. induction idxs as [|i idxs IH]; intros s s' Hs; simpl.
  - by intros [= <-].
  - intros Hrun. apply bind_Ok in Hrun as (s1 & H1 & Hrest).
    apply (IH s1 s'); [|done]. by apply (Hbody s i).
Qed.

Lemma signals_fit_all_hold (df : DataFrame) : signals_fit (len df) (all_hold df).
Proof.
  split; [apply length_replicate|].
  apply Forall_forall. intros s Hs.
  apply list_elem_of_In, elem_of_replicate in Hs as [-> _]. by left.
Qed.

Lemma signals_fit_insert (n i : nat) (s : string) (signals : list string) :
  signal_word s → signals_fit n signals → signals_fit n (<[i := s]> signals).
Proof.
  intros Hs [Hlen Hall]. split.
  - by rewrite length_insert.
  - by apply Forall_insert.
Qed.

(** A pass of the first strategy writes at most the signal of its bar. *)
Lemma strategy1_body_signals (df : DataFrame) (ts : nat → Timestamp)
    (obs : list OrderBlock) (st st' : OBState) (i : nat) :
  strategy1_body df ts obs st i = Ok st' →
  ob_signals st' = ob_signals st ∨
  ob_signals st' = <[i := "buy"]> (ob_signals st) ∨
  ob_signals st' = <[i := "sell"]> (ob_signals st).
Proof.
  unfold strategy1_body. intros Hbody.
  apply bind_Ok in Hbody as ([|] & _ & Hbody); [injection Hbody as <-; auto|].
  apply bind_Ok in Hbody as ([|] & _ & Hbody); [injection Hbody as <-; auto|].
  apply bind_Ok in Hbody as ([|] & _ & Hbody); [injection Hbody as <-; auto|].
  apply bind_Ok in Hbody as ([|] & _ & Hbody); injection Hbody as <-; auto.
Qed.

(** A pass of the second strategy writes at most the signal of its bar. *)
Lemma strategy2_body_signals (self : ExampleStrategy2) (df : DataFrame)
    (ts : nat → Timestamp) (st st' : FVGState) (i : nat) :
  strategy2_body self df ts st i = Ok st' →
  fvg_signals st' = fvg_signals st ∨
  fvg_signals st' = <[i := "buy"]> (fvg_signals st) ∨
  fvg_signals st' = <[i := "sell"]> (fvg_signals st).
Proof.
  unfold strategy2_body. intros Hbody.
  apply bind_Ok in Hbody as ([k|] & _ & Hbody); [injection Hbody as <-; auto|].
  apply bind_Ok in Hbody as ([k|] & _ & Hbody); [injection Hbody as <-; auto|].
  apply bind_Ok in Hbody as ([k|] & _ & Hbody); [injection Hbody as <-; auto|].
  apply bind_Ok in Hbody as ([k|] & _ & Hbody); injection Hbody as <-; auto.
Qed.



(** ** Strategies: nothing to act on *)

Lemma for_each_cases {St : Type} (P : St → Prop) (E : exn → Prop)
    (body : St → nat → result St) (idxs : list nat) :
  (∀ s i, P s → (∃ s', body s i = Ok s' ∧ P s') ∨ (∃ e, body s i = Raise e ∧ E e)) →
  ∀ s, P s → (∃ s', for_each body s idxs = Ok s' ∧ P s') ∨
             (∃ e, for_each body s idxs = Raise e ∧ E e).
Proof.
  intros Hbody. induction idxs as [|i idxs IH]; intros s Hs; simpl.
  - left. by exists s.
  - destruct (Hbody s i Hs) as [(s1 & -> & Hs1)|(e & -> & He)]; simpl.
    + by apply IH.
    + right. by exists e.
Qed.

Lemma missing_essential_with_index (df : DataFrame) (ts : nat → Timestamp) :
  missing_essential df → missing_essential (with_index df ts).
Proof. done. Qed.

Lemma missing_columns_no_blocks (df : DataFrame) (sf : Q) :
  missing_essential df → identify_order_blocks df sf = Ok [].
Proof.
  intros Hmiss. unfold identify_order_blocks. by rewrite (ensure_raises df Hmiss).
Qed.

Lemma missing_columns_no_gaps (df : DataFrame) :
  missing_essential df → identify_fair_value_gaps df = Ok [].
Proof.
  intros Hmiss. unfold identify_fair_value_gaps. by rewrite (ensure_raises df Hmiss).
Qed.

(** Without order blocks a pass of the first strategy changes nothing. *)
Lemma strategy1_body_idle (df : DataFrame) (ts : nat → Timestamp) (st : OBState)
    (i : nat) :
  active_bullish_ob st = None → active_bearish_ob st = None →
  strategy1_body df ts [] st i = Ok st.
Proof.
  destruct st as [signals bull bear pos]. simpl. intros -> ->.
  unfold strategy1_body. simpl. done.
Qed.

(** Without gaps a pass of the second strategy changes nothing. *)
Lemma strategy2_body_idle (self : ExampleStrategy2) (df : DataFrame)
    (ts : nat → Timestamp) (st : FVGState) (i : nat) :
  fair_value_gaps st = [] →
  strategy2_body self df ts st i = Ok st.
Proof.
  destruct st as [signals gaps bull bear pos]. simpl. intros ->.
  unfold strategy2_body, unfilled. simpl.
  destruct bull as [kb|], bear as [ke|]; simpl; done.
Qed.

Lemma for_each_idle {St : Type} (body : St → nat → result St)
    (idxs : list nat) (s : St) :
  (∀ i, body s i = Ok s) → for_each body s idxs = Ok s.
Proof.
  intros Hbody. induction idxs as [|i idxs IH]; simpl; [done|].
  by rewrite Hbody.
Qed.



(** ** Strategies: column names *)

Lemma identify_order_blocks_returns (df : DataFrame) (sf : Q) :
  ∃ obs, identify_order_blocks df sf = Ok obs.
Proof.
  destruct (_ensure_datetime_index_and_columns df) as [df'|e] eqn:Hprep.
  - destruct (index df') as [ts|raw parsed] eqn:Hix.
    + destruct (identify_order_blocks_prepared df df' ts sf Hprep Hix)
        as (bars & _ & ->). by eexists.
    + exists []. unfold identify_order_blocks. by rewrite Hprep, Hix.
  - exists []. unfold identify_order_blocks. rewrite Hprep.
    by apply ensure_raises_ValueError in Hprep as [msg ->].
Qed.

Lemma getitem_missing (df : DataFrame) (i : nat) (c : string) :
  column df c = None → getitem (iloc df i) c = Raise (KeyError c).
Proof. intros Hc. unfold getitem, iloc. by rewrite Hc. Qed.

Lemma getitem_cases (df : DataFrame) (i : nat) (c : string) :
  (∃ x, getitem (iloc df i) c = Ok x) ∨ getitem (iloc df i) c = Raise (KeyError c).
Proof.
  unfold getitem. destruct (iloc df i c) as [x|]; [left; by exists x | by right].
Qed.

(** Without a column named [low] a pass of the first strategy, started
    flat, fails on a price or leaves signals and position alone. *)
Lemma strategy1_body_without_low (df : DataFrame) (ts : nat → Timestamp)
    (obs : list OrderBlock) (st : OBState) (i : nat) :
  column df "low" = None →
  untraded df st →
  (∃ st', strategy1_body df ts obs st i = Ok st' ∧ untraded df st') ∨
  (∃ e, strategy1_body df ts obs st i = Raise e ∧ price_KeyError e).
Proof.
  intros Hlow [Hsig Hpos]. unfold strategy1_body.
  generalize (foldl (track_order_block (ts i))
                    (active_bullish_ob st, active_bearish_ob st) obs).
  intros [bull bear]. cbn [fst snd ob_position ob_signals active_bullish_ob
                           active_bearish_ob].
  rewrite Hpos, (getitem_missing df i "low" Hlow).
  destruct bull as [ob|]; simpl.
  { right. eexists. split; [done|]. by left. }
  destruct bear as [ob|]; simpl.
  - destruct (getitem_cases df i "high") as [[h ->]| ->]; simpl.
    + destruct (Qle_bool (ob_low ob) h); simpl.
      * right. eexists. split; [done|]. by left.
      * left. eexists. split; [done|]. by split.
    + right. eexists. split; [done|]. by right.
  - left. eexists. split; [done|]. by split.
Qed.



(** ** Frame preparation: a second pass *)

Lemma lower_ascii_idem (c : Ascii.ascii) : lower_ascii (lower_ascii c) = lower_ascii c.
Proof. destruct c as [[] [] [] [] [] [] [] []]; reflexivity. Qed.

Lemma lower_idem (s : string) : lower (lower s) = lower s.
Proof.
  induction s as [|c s IH]; simpl; [done|]. by rewrite lower_ascii_idem, IH.
Qed.

Lemma standard_name_idem (l : string) :
  standard_name (standard_name l) = standard_name l.
Proof.
  destruct (decide (lower l ∈ ["open"; "high"; "low"; "close"; "volume"]))
    as [Hin|Hnot].
  - assert (standard_name l = lower l) as ->
      by (unfold standard_name; by rewrite bool_decide_true).
    unfold standard_name. rewrite lower_idem. by rewrite bool_decide_true.
  - assert (standard_name l = l) as Hl
      by (unfold standard_name; by rewrite bool_decide_false).
    by rewrite !Hl.
Qed.

Lemma columns_rename (df : DataFrame) :
  columns (rename df (build_rename_map (labels df))) = standard_columns (columns df).
Proof.
  unfold rename, standard_columns. simpl.
  apply Forall_fmap_ext_1, Forall_forall. intros [l s] Hin. simpl. f_equal.
  apply renamed_build. unfold labels.
  apply list_elem_of_fmap. exists (l, s). split; [done|].
  by apply list_elem_of_In.
Qed.

Lemma time_cols_kept (c : string) : c ∈ time_cols → kept_label c.
Proof.
  intros Hc l. unfold standard_name. split.
  - case_bool_decide as Hl; [|done]. intros <-. exfalso.
    repeat (apply elem_of_cons in Hc as [Hc|Hc];
            [rewrite Hc in Hl;
             repeat (apply elem_of_cons in Hl as [Hl|Hl]; [discriminate|]);
             by apply elem_of_nil in Hl|]).
    by apply elem_of_nil in Hc.
  - intros ->.
    repeat (apply elem_of_cons in Hc as [->|Hc]; [reflexivity|]).
    by apply elem_of_nil in Hc.
Qed.

Lemma find_column_standard (c : string) (cols : list (string * Series)) :
  kept_label c → find_column c (standard_columns cols) = find_column c cols.
Proof.
  intros Hkept. induction cols as [|[l s] cols IH]; simpl; [done|].
  destruct (decide (l = c)) as [->|Hne].
  - rewrite decide_True; [done|]. by apply Hkept.
  - rewrite decide_False; [done|]. intros Heq. by apply Hne, Hkept.
Qed.

Lemma in_columns_standard (c : string) (df df' : DataFrame) :
  kept_label c → columns df' = standard_columns (columns df) →
  in_columns c df' = in_columns c df.
Proof.
  intros Hkept Hcols. apply eq_true_iff_eq.
  rewrite !in_columns_column. unfold column.
  by rewrite Hcols, find_column_standard.
Qed.

(** No time column to convert before the renaming, none after it. *)
Lemma convert_time_column_standard (df df' : DataFrame) (names : list string) :
  (∀ c, c ∈ names → kept_label c) →
  columns df' = standard_columns (columns df) →
  convert_time_column df names = None →
  convert_time_column df' names = None.
Proof.
  intros Hkept Hcols. induction names as [|c names IH]; simpl; [done|].
  assert (kept_label c) as Hc by (apply Hkept; by left).
  rewrite (in_columns_standard c df df' Hc Hcols).
  unfold column. rewrite Hcols, (find_column_standard c _ Hc).
  destruct (in_columns c df).
  - fold (column df c). destruct (column df c ≫= to_datetime); [done|].
    apply IH. intros c' Hc'. apply Hkept. by right.
  - apply IH. intros c' Hc'. apply Hkept. by right.
Qed.

Lemma ensure_index_fixed (df : DataFrame) :
  isinstance_DatetimeIndex (index (ensure_index df)) = true ∨
  ensure_index df = df ∧ convert_time_column df time_cols = None ∧
  ∃ raw, index df = ObjectIndex raw None.
Proof.
  unfold ensure_index. destruct (index df) as [ts|raw parsed] eqn:Hix.
  - left. by rewrite Hix.
  - destruct (convert_time_column df time_cols) as [d|] eqn:E.
    + left. revert E. generalize time_cols. intros names.
      induction names as [|c names IH]; simpl; [done|].
      destruct (in_columns c df); [|done].
      destruct (column df c ≫= to_datetime); [|done].
      by intros [= <-].
    + destruct parsed as [ts|]; [by left|]. right.
      split; [done|]. split; [done|]. by exists raw.
Qed.

Lemma rename_eq (df : DataFrame) :
  rename df (build_rename_map (labels df))
  = {| len := len df; index := index df;
       columns := standard_columns (columns df) |}.
Proof.
  pose proof (columns_rename df) as Hcols. unfold rename in *. simpl in Hcols.
  by rewrite Hcols.
Qed.

Lemma standard_columns_idem (cols : list (string * Series)) :
  standard_columns (standard_columns cols) = standard_columns cols.
Proof.
  unfold standard_columns. rewrite <- list_fmap_compose.
  apply Forall_fmap_ext_1, Forall_forall. intros [l s] _. simpl.
  by rewrite standard_name_idem.
Qed.

Lemma ensure_idempotent (df df' : DataFrame) :
  _ensure_datetime_index_and_columns df = Ok df' →
  _ensure_datetime_index_and_columns df' = Ok df'.
Proof.
  unfold _ensure_datetime_index_and_columns at 1.
  destruct (forallb _ essential_cols) eqn:Hcheck; [|done]. intros [= <-].
  revert Hcheck. rewrite rename_eq.
  set (e := ensure_index df).
  set (df' := {| len := len e; index := index e;
                 columns := standard_columns (columns e) |}).
  intros Hcheck.
  assert (ensure_index df' = df') as Hfix.
  { unfold ensure_index at 1.
    destruct (index df') as [ts|raw parsed] eqn:Hix; [done|].
    destruct (ensure_index_fixed df) as [Hdt|(He & Hnone & raw0 & Hraw)].
    - fold e in Hdt. change (index df') with (index e) in Hix.
      by rewrite Hix in Hdt.
    - fold e in He. change (index df') with (index e) in Hix.
      rewrite He, Hraw in Hix. injection Hix as <- <-.
      rewrite (convert_time_column_standard e df' time_cols); [done| |done|].
      + intros c. apply time_cols_kept.
      + by rewrite He. }
  unfold _ensure_datetime_index_and_columns. rewrite Hfix, rename_eq.
  assert ({| len := len df'; index := index df';
             columns := standard_columns (columns df') |} = df') as ->.
  { unfold df'. simpl. by rewrite standard_columns_idem. }
  by rewrite Hcheck.
Qed.



(** ** Metrics: realised profit *)

Lemma ledger_pnl_app (l1 l2 : list TradeRecord) :
  ledger_pnl (l1 ++ l2) == ledger_pnl l1 + ledger_pnl l2.
Proof.
  induction l1 as [|t l1 IH]; simpl; [lra|].
  unfold ledger_pnl in *. simpl. rewrite IH. lra.
Qed.

Lemma series_sum_from (cs : list cell) :
  ∀ a, Forall nan_or_finite cs →
       ∃ q, foldl (λ acc v, match v with NaN => acc | _ => cell_add acc v end)
                  (Finite a) cs = Finite q
            ∧ q == a + cells_total cs.
Proof.
  induction cs as [|c cs IH]; intros a Hcs; simpl.
  - exists a. split; [done|]. unfold cells_total. simpl. lra.
  - inversion Hcs as [|c' cs' Hc Hrest]; subst.
    destruct Hc as [->|[x ->]]; simpl.
    + destruct (IH a Hrest) as (q & -> & Hq). exists q. split; [done|].
      unfold cells_total in *. simpl. lra.
    + destruct (IH (a + x) Hrest) as (q & -> & Hq). exists q. split; [done|].
      unfold cells_total in *. simpl. lra.
Qed.

Section RealisedProfit.
Context {S : Type} `{BaseStrategy S}.
Implicit Types (self : Backtester S) (st : BacktesterState).

(** The profit a signal returns is the profit of the records it appends. *)
Lemma handle_signal_pnl self ts sig px c st :
  ∃ new, trade_log (handle_signal self ts sig px c st).2 = trade_log st ++ new ∧
         ledger_pnl new == (handle_signal self ts sig px c st).1.
Proof.
  assert (∀ s, ∃ new, trade_log (open_long self ts px c s) = trade_log s ++ new ∧
                      ledger_pnl new == 0) as Hlong.
  { intros s. unfold open_long.
    destruct (Qeq_bool (current_position_qty s) 0);
      [destruct (Qle_bool _ (current_cash s))|]; simpl.
    - eexists [_]. split; [done|]. unfold ledger_pnl. simpl. lra.
    - exists []. by rewrite app_nil_r.
    - exists []. by rewrite app_nil_r. }
  assert (∀ s, ∃ new, trade_log (open_short self ts px c s) = trade_log s ++ new ∧
                      ledger_pnl new == 0) as Hshort.
  { intros s. unfold open_short.
    destruct (Qeq_bool (current_position_qty s) 0); simpl.
    - eexists [_]. split; [done|]. unfold ledger_pnl. simpl. lra.
    - exists []. by rewrite app_nil_r. }
  destruct (decide (sig = Some "buy")) as [->|Hb];
    [|destruct (decide (sig = Some "sell")) as [->|Hs]].
  - rewrite handle_signal_buy. cbn [fst snd].
    destruct (Hlong (cover_short self ts px st).2) as (n2 & -> & Hn2).
    unfold cover_short.
    destruct (Qlt_bool (current_position_qty st) 0); cbn [fst snd trade_log].
    + eexists (_ :: n2). rewrite <- app_assoc. split; [done|].
      unfold ledger_pnl in *. simpl. rewrite Hn2. lra.
    + exists n2. split; [done|]. by rewrite Hn2.
  - rewrite handle_signal_sell. cbn [fst snd].
    destruct (Hshort (close_long self ts px st).2) as (n2 & -> & Hn2).
    unfold close_long.
    destruct (Qlt_bool 0 (current_position_qty st)); cbn [fst snd trade_log].
    + eexists (_ :: n2). rewrite <- app_assoc. split; [done|].
      unfold ledger_pnl in *. simpl. rewrite Hn2. lra.
    + exists n2. split; [done|]. by rewrite Hn2.
  - rewrite handle_signal_other by done. exists []. rewrite app_nil_r.
    split; [done|]. reflexivity.
Qed.

Lemma snapshot_trade_pnl i c st :
  trade_pnl (positions_df (snapshot i c st) i) = trade_pnl (positions_df st i).
Proof.
  unfold snapshot, mark_to_market, carry_forward.
  destruct (0 <? i)%nat; by rewrite !set_row_same.
Qed.

(** A completed bar writes the profit of the records it appends. *)
Lemma process_bar_pnl self i ts st st' :
  trade_pnl (positions_df st i) = NaN →
  process_bar self i ts st = (Ok (), st') →
  ∃ new, trade_log st' = trade_log st ++ new ∧
         nan_or_finite (trade_pnl (positions_df st' i)) ∧
         cell_value (trade_pnl (positions_df st' i)) == ledger_pnl new.
Proof.
  intros Hnan. rewrite process_bar_unfold.
  destruct (getitem _ "close") as [c|e]; [|done].
  destruct (account_fields _ _ (account_snapshot i c st)) as (Hlog & _).
  destruct (_get_execution_price _ _ _) as [[px|]|e]; [| |done].
  - destruct (handle_signal_pnl self ts (signal (positions_df st i)) px c
                (snapshot i c st)) as (new & Hnew & Hsum).
    destruct (handle_signal _ _ _ _ _ _) as [pnl st2]. cbn [fst snd] in *.
    intros [= <-]. exists new. rewrite <- Hlog. split; [done|].
    unfold record_row. rewrite set_row_same. simpl.
    destruct (Qeq_bool pnl 0) eqn:Ez; simpl.
    + apply Qeq_bool_iff in Ez. split; [by left|]. by rewrite Hsum.
    + split; [right; by eexists|]. by rewrite Hsum.
  - intros [= <-]. exists []. rewrite app_nil_r. split; [done|].
    rewrite snapshot_trade_pnl, Hnan. split; [by left|]. reflexivity.
Qed.

Lemma run_loop_pnl self n :
  ∀ a st st',
    no_pnl_from a st →
    run_loop self (seq a n) st = (Ok (), st') →
    ∃ new, trade_log st' = trade_log st ++ new ∧
           Forall nan_or_finite ((λ j, trade_pnl (positions_df st' j)) <$> seq a n) ∧
           cells_total ((λ j, trade_pnl (positions_df st' j)) <$> seq a n)
           == ledger_pnl new.
Proof.
  induction n as [|n IH]; intros a st st' Hnan; unfold run_loop; simpl seq.
  - intros [= <-]. exists []. rewrite app_nil_r. split; [done|].
    split; [constructor | reflexivity].
  - rewrite for_bars_cons.
    set (ts := index_at (index (ohlcv_data self)) a).
    pose proof (process_bar_pnl self a ts st) as Hbar.
    pose proof (process_bar_rows_other self a ts st) as Hother.
    destruct (process_bar self a ts st) as [[[]|e] st1]; [|done].
    cbn [snd] in Hother.
    destruct (Hbar st1 (Hnan a (le_n a)) eq_refl) as (n1 & Hlog1 & Hcell & Hsum1).
    fold (run_loop self (seq (Datatypes.S a) n) st1). intros Hrest.
    destruct (IH (Datatypes.S a) st1 st') as (n2 & Hlog2 & Hcells & Hsum2);
      [|done|].
    { intros j Hj. rewrite Hother by lia. apply Hnan. lia. }
    assert (positions_df st' a = positions_df st1 a) as Hrow.
    { replace st' with (run_loop self (seq (Datatypes.S a) n) st1).2
        by (by rewrite Hrest).
      apply run_loop_rows_other. rewrite elem_of_seq. lia. }
    exists (n1 ++ n2). rewrite Hlog2, Hlog1, app_assoc. split; [done|].
    simpl. rewrite Hrow. split; [by constructor|].
    rewrite ledger_pnl_app. unfold cells_total in *. simpl.
    rewrite Hsum1, Hsum2. reflexivity.
Qed.
End RealisedProfit.


